(** * Tag-policy generator of [infra/index.ts]

    A shallow embedding of the Pulumi program that compiles the
    [requiredTags] / [enforcementMode] stack configuration into an AWS
    Organizations tag-policy document and attaches it to the organization
    root, followed by the properties established about it.

    Layout:
    - [Js]: the fragment of JavaScript the program relies on (ordinary
      objects with their property order, [||], object literals with spread,
      assignment to a property, [JSON.stringify]);
    - [Pulumi]: the resources the program registers and the monad in which
      the top-level statements of the module run;
    - [Index]: the definitions of [infra/index.ts], in source order;
    - the theorems. *)

From Stdlib Require Import String Ascii List Bool Arith NArith Lia.
From Stdlib Require Import DecimalString.
Import ListNotations.

Local Open Scope list_scope.
Local Open Scope string_scope.

Set Implicit Arguments.
Local Set Warnings "-register-all".

(* ================================================================== *)
(** ** The JavaScript fragment *)

Module Js.

(** Strings are kept as sequences of bytes: the UTF-8 form of the JS
    string, with a surrogate that has no partner written in the same
    three-byte form as any other code point of its range (bytes [ED],
    [A0]-[BF], [80]-[BF]).  Every JS string has one such form, so [===] on
    strings is equality of the sequences.  The program only concatenates at
    places where one side is ASCII, where the form of the concatenation is
    the concatenation of the forms. *)

(** *** Property keys

    [OrdinaryOwnPropertyKeys] lists the array-index keys first, in
    ascending numeric order, and the other string keys after them in the
    order of their creation.  An array index is a canonical numeric
    string whose value is at most 2^32 - 2. *)

Definition is_digit (c : ascii) : bool :=
  (48 <=? nat_of_ascii c)%nat && (nat_of_ascii c <=? 57)%nat.

Fixpoint digits_value (acc : N) (s : string) : option N :=
  match s with
  | EmptyString => Some acc
  | String c s' =>
      if is_digit c
      then digits_value (acc * 10 + (N_of_ascii c - 48)) s'
      else None
  end.

Definition array_index (k : string) : option N :=
  match k with
  | EmptyString => None
  | String c rest =>
      if Ascii.eqb c "0" && negb (rest =? "") then None
      else match digits_value 0 k with
           | Some n => if (n <? 2 ^ 32 - 1)%N then Some n else None
           | None => None
           end
  end.

(** [key_precedes k k'] : a fresh key [k] is enumerated before the
    existing key [k']. *)
Definition key_precedes (k k' : string) : bool :=
  match array_index k, array_index k' with
  | Some n, Some n' => (n <? n')%N
  | Some _, None => true
  | None, _ => false
  end.

(** *** Ordinary objects

    An object is the list of its own enumerable string-keyed properties
    in enumeration order; this is what [Object.entries] returns. *)

Definition Object (V : Type) : Type := list (string * V).

Section Objects.
Variable V : Type.

Definition empty : Object V := [].

Definition entries (o : Object V) : list (string * V) := o.

Definition keys (o : Object V) : list string := map fst o.

Fixpoint get (k : string) (o : Object V) : option V :=
  match o with
  | [] => None
  | (k', v) :: o' => if k =? k' then Some v else get k o'
  end.

Definition has (k : string) (o : Object V) : bool :=
  match get k o with Some _ => true | None => false end.

(** Assignment to an existing property keeps its place. *)
Fixpoint replace (k : string) (v : V) (o : Object V) : Object V :=
  match o with
  | [] => []
  | (k', v') :: o' =>
      if k =? k' then (k', v) :: o' else (k', v') :: replace k v o'
  end.

(** Creation of a property puts it where the key order says. *)
Fixpoint add_new (k : string) (v : V) (o : Object V) : Object V :=
  match o with
  | [] => [(k, v)]
  | (k', v') :: o' =>
      if key_precedes k k' then (k, v) :: (k', v') :: o'
      else (k', v') :: add_new k v o'
  end.

(** [CreateDataProperty(o, k, v)]: how an object literal (computed keys
    included) and a spread define a property. *)
Definition set (k : string) (v : V) (o : Object V) : Object V :=
  if has k o then replace k v o else add_new k v o.

(** The assignment [o[k] = v] on an ordinary object whose prototype chain
    ends in [Object.prototype].  An own property is written in place.
    Otherwise the chain is searched: the only accessor on it is
    [Object.prototype.__proto__], whose setter changes the prototype of
    [o] and creates no own property; every other key, found up the chain
    as a writable data property or not found, is created on [o] itself.
    The own properties are all that [Object.keys], [Object.entries] and
    [JSON.stringify] look at, and no property named [toJSON] is defined
    anywhere, so the prototype itself is not kept. *)
Definition put (k : string) (v : V) (o : Object V) : Object V :=
  if has k o then replace k v o
  else if k =? "__proto__" then o
  else add_new k v o.

(** [{ ...o, ...src }]: the spread of [false] (the value of
    [cond && {...}] when [cond] fails) copies nothing. *)
Definition spread (src : option (Object V)) (o : Object V) : Object V :=
  match src with
  | None => o
  | Some s => fold_left (fun acc kv => set (fst kv) (snd kv) acc) (entries s) o
  end.

(** [cond && obj] as the operand of a spread. *)
Definition and_then (cond : bool) (obj : Object V) : option (Object V) :=
  if cond then Some obj else None.

(** The shape of an object an engine can hold: no key twice, array
    indices first and ascending. *)
Fixpoint ordered (o : Object V) : bool :=
  match o with
  | [] => true
  | (k, _) :: o' =>
      forallb (fun k' => negb (k =? k') && negb (key_precedes k' k)) (keys o')
      && ordered o'
  end.

End Objects.

(** The object with the same keys and [g] applied to every value. *)
Definition map_values {V W : Type} (g : V -> W) (o : Object V) : Object W :=
  map (fun kv => (fst kv, g (snd kv))) o.

(** [a || b] on [T | undefined] where [T] is an object type: every object
    is truthy, only [undefined] takes the right operand. *)
Definition or_object {T : Type} (a : option T) (b : T) : T :=
  match a with Some x => x | None => b end.

(** [a || b] on [string | undefined]: [undefined] and the empty string are
    falsy. *)
Definition or_string (a : option string) (b : string) : string :=
  match a with
  | Some s => if s =? "" then b else s
  | None => b
  end.

(** *** Values that reach [JSON.stringify] *)

Inductive value : Type :=
| VString (s : string)
| VArray (items : list value)
| VObject (props : Object value).

Definition strings (l : list string) : value := VArray (map VString l).

(** *** [JSON.stringify (v, null, space)] *)

Definition dquote : ascii := "034"%char.
Definition newline : string := String "010"%char "".

Definition hex_digit (n : nat) : ascii :=
  nth n (list_ascii_of_string "0123456789abcdef") "0"%char.

(** [QuoteJSONString] for one code point that is not a lone surrogate,
    given by its first byte: the bytes above 127 of its UTF-8 form are
    copied one by one. *)
Definition quote_char (c : ascii) : string :=
  let n := nat_of_ascii c in
  if (n =? 34)%nat then String "\" (String dquote "")
  else if (n =? 92)%nat then "\\"
  else if (n =? 8)%nat then "\b"
  else if (n =? 9)%nat then "\t"
  else if (n =? 10)%nat then "\n"
  else if (n =? 12)%nat then "\f"
  else if (n =? 13)%nat then "\r"
  else if (n <? 32)%nat
       then "\u00" ++ String (hex_digit (n / 16)) (String (hex_digit (n mod 16)) "")
  else String c "".

(** The code unit of a surrogate from the three bytes of its form. *)
Definition surrogate_unit (c1 c2 c3 : ascii) : option nat :=
  let n2 := nat_of_ascii c2 in
  let n3 := nat_of_ascii c3 in
  if ((nat_of_ascii c1 =? 237) && (160 <=? n2) && (n2 <=? 191)
      && (128 <=? n3) && (n3 <=? 191))%nat
  then Some (216 * 256 + (n2 - 160) * 64 + (n3 - 128))
  else None.

(** [UnicodeEscape]: four lowercase hexadecimal digits. *)
Definition unicode_escape (u : nat) : string :=
  "\u" ++ String (hex_digit (u / 4096 mod 16))
            (String (hex_digit (u / 256 mod 16))
               (String (hex_digit (u / 16 mod 16))
                  (String (hex_digit (u mod 16)) ""))).

(** A surrogate without partner is written as an escape. *)
Fixpoint quote_body (s : string) : string :=
  match s with
  | EmptyString => ""
  | String c1 s1 =>
      match s1 with
      | String c2 (String c3 s3) =>
          match surrogate_unit c1 c2 c3 with
          | Some u => unicode_escape u ++ quote_body s3
          | None => quote_char c1 ++ quote_body s1
          end
      | _ => quote_char c1 ++ quote_body s1
      end
  end.

Definition quote (s : string) : string :=
  String dquote (quote_body s ++ String dquote "").

Fixpoint join (sep : string) (parts : list string) : string :=
  match parts with
  | [] => ""
  | [p] => p
  | p :: rest => p ++ sep ++ join sep rest
  end.

(** The common tail of [SerializeJSONObject] and [SerializeJSONArray]. *)
Definition wrap (opening closing gap stepback indent : string)
           (partial : list string) : string :=
  match partial with
  | [] => opening ++ closing
  | _ =>
      if gap =? "" then opening ++ join "," partial ++ closing
      else opening ++ newline ++ indent
           ++ join ("," ++ newline ++ indent) partial
           ++ newline ++ stepback ++ closing
  end.

Fixpoint serialize (gap indent : string) (v : value) {struct v} : string :=
  match v with
  | VString s => quote s
  | VArray items =>
      let stepback := indent in
      let indent := stepback ++ gap in
      wrap "[" "]" gap stepback indent (map (serialize gap indent) items)
  | VObject props =>
      let stepback := indent in
      let indent := stepback ++ gap in
      wrap "{" "}" gap stepback indent
        (map (fun kv =>
                match kv with
                | (k, x) =>
                    quote k ++ ":" ++ (if gap =? "" then "" else " ")
                    ++ serialize gap indent x
                end) props)
  end.

Fixpoint spaces (n : nat) : string :=
  match n with O => "" | S m => " " ++ spaces m end.

(** [space] a number: the gap is [min(10, space)] blanks. *)
Definition JSON_stringify (v : value) (space : nat) : string :=
  serialize (spaces (Nat.min 10 space)) "" v.

(** [String(n)] for a non-negative integer. *)
Definition string_of_number (n : nat) : string :=
  NilEmpty.string_of_uint (Nat.to_uint n).

End Js.

(* ================================================================== *)
(** ** Pulumi: configuration, outputs, resources *)

Module Pulumi.

(** [new pulumi.Config()]: [config.get] returns the raw string of a key
    or [undefined]; [config.getObject] returns the parsed value of a key or
    [undefined].  The program reads one object, typed
    [Record<string, string[]>]. *)
Record Config : Type := {
  config_get : string -> option string;
  config_getObject : string -> option (Js.Object (list string))
}.

(** An [Output<string>]: a value already resolved ([None] is
    [undefined]), or a property of a resource registered in this run,
    assigned by the engine. *)
Inductive Output : Type :=
| Resolved (v : option string)
| PropertyOf (resource : string) (property : string).

Record PolicyArgs : Type := {
  name : string;
  description : string;
  type : string;
  content : string
}.

Record PolicyAttachmentArgs : Type := {
  policyId : Output;
  targetId : Output
}.

Inductive Resource : Type :=
| Policy (urn_name : string) (args : PolicyArgs)
| PolicyAttachment (urn_name : string) (args : PolicyAttachmentArgs).

(** One root of [aws.organizations.getOrganizationOutput()]. *)
Record Root : Type := { id : string }.

(** What the outside supplies to one run: the stack configuration and the
    result of the organization lookup. *)
Record Environment : Type := {
  config : Config;
  roots : list Root
}.

(** A run of the module either completes or throws. *)
Inductive completion (A : Type) : Type :=
| Normal (a : A)
| Throw (error : string).
Arguments Throw {A} error.

(** Top-level statements: they register resources, in order. *)
Definition Program (A : Type) : Type :=
  list Resource -> completion (A * list Resource).

Definition ret {A : Type} (a : A) : Program A :=
  fun registered => Normal (a, registered).

Definition bind {A B : Type} (m : Program A) (k : A -> Program B) : Program B :=
  fun registered =>
    match m registered with
    | Normal (a, registered') => k a registered'
    | Throw e => Throw e
    end.

(** [new R(name, args)]: registers the resource and hands back the
    handle through which its outputs are named. *)
Definition register (r : Resource) : Program string :=
  fun registered =>
    Normal (match r with Policy n _ => n | PolicyAttachment n _ => n end,
            (registered ++ [r])%list).

Definition run {A : Type} (m : Program A) : completion (A * list Resource) :=
  m [].

(** Lifted access [roots[0].id] on the output of the lookup: [undefined]
    when there is no first root. *)
Definition first_root_id (rs : list Root) : Output :=
  Resolved (option_map id (nth_error rs 0)).

End Pulumi.

Declare Scope program_scope.
Delimit Scope program_scope with program.
Notation "x <- m ;; k" := (Pulumi.bind m (fun x => k))
  (at level 61, m at next level, right associativity) : program_scope.

(* ================================================================== *)
(** ** [infra/index.ts] *)

Module Index.

Import Js Pulumi.

(** The fallback of [requiredTags]. *)
Definition default_requiredTags : Object (list string) :=
  [ ("Environment", ["Development"; "Staging"; "Production"]);
    ("Owner", []);
    ("CostCenter", []);
    ("Project", []) ].

(** [config.getObject("requiredTags") || {...}] *)
Definition requiredTags (cfg : Config) : Object (list string) :=
  or_object (config_getObject cfg "requiredTags") default_requiredTags.

(** [config.get("enforcementMode") || "detective"] *)
Definition enforcementMode (cfg : Config) : string :=
  or_string (config_get cfg "enforcementMode") "detective".

Definition SUPPORTED_SERVICES : list string :=
  [ "access-analyzer"; "apigateway"; "appmesh"; "appstream"; "athena";
    "cloudformation"; "cloudfront"; "cloudtrail"; "cloudwatch";
    "codebuild"; "codecommit"; "codepipeline"; "config"; "dynamodb";
    "ec2"; "ecr"; "ecs"; "elasticfilesystem"; "eks"; "elasticbeanstalk";
    "elasticache"; "elasticloadbalancing"; "es"; "events"; "fsx"; "glue";
    "iam"; "kinesis"; "kms"; "lambda"; "logs"; "rds"; "redshift";
    "route53"; "s3"; "sagemaker"; "secretsmanager"; "sns"; "sqs";
    "states"; "ssm"; "waf"; "wafv2"; "workspaces" ].

Definition report_field : string := "*@@report_required_tag_for*".
Definition enforce_field : string := "enforced_for".

(** [enforcementMode === "detective" ? ... : ...] *)
Definition enforcedForKey (mode : string) : string :=
  if mode =? "detective" then report_field else enforce_field.

(** The document, as a function of the three constants it reads. *)
Section Compiler.
Variable services : list string.
Variable key : string.

(** [services.map(service => `${service}:ALL_SUPPORTED`)] *)
Definition all_supported : list string :=
  map (fun service => service ++ ":ALL_SUPPORTED") services.

Definition assign (v : value) : value :=
  VObject (set "@@assign" v (empty value)).

(** The object literal stored under one tag key. *)
Definition tag_entry (tagKey : string) (allowedValues : list string) : value :=
  VObject
    (set key (assign (strings all_supported))
       (spread
          (and_then (0 <? length allowedValues)%nat
             (set "tag_value" (assign (strings allowedValues)) (empty value)))
          (set "tag_key" (assign (VString tagKey)) (empty value)))).

(** The callback of [reduce]: the assignment [acc[tagKey] = {...}]. *)
Definition reducer (acc : Object value) (entry : string * list string)
  : Object value :=
  match entry with
  | (tagKey, allowedValues) => put tagKey (tag_entry tagKey allowedValues) acc
  end.

Definition tags (required : Object (list string)) : Object value :=
  fold_left reducer (entries required) (empty value).

Definition tagPolicyContent (required : Object (list string)) : value :=
  VObject (set "tags" (VObject (tags required)) (empty value)).
End Compiler.

Record Exports : Type := {
  export_policyId : Output;
  export_policyName : Output;
  export_policyArn : Output;
  supportedServiceCount : nat;
  requiredTagKeys : list string;
  mode : string
}.

Definition policy_args (cfg : Config) : PolicyArgs :=
  {| name := "required-tags-policy";
     description :=
       "Tag policy (" ++ enforcementMode cfg ++ " mode) for required tags across "
       ++ string_of_number (length SUPPORTED_SERVICES) ++ " AWS services";
     type := "TAG_POLICY";
     content :=
       JSON_stringify
         (tagPolicyContent SUPPORTED_SERVICES
            (enforcedForKey (enforcementMode cfg)) (requiredTags cfg)) 2 |}.

(** The module body. *)
Definition main (env : Environment) : Program Exports :=
  (tagPolicy <- register (Policy "required-tags-policy" (policy_args (config env))) ;;
   policyAttachment <-
     register (PolicyAttachment "required-tags-attachment"
                 {| policyId := PropertyOf tagPolicy "id";
                    targetId := first_root_id (roots env) |}) ;;
   ret {| export_policyId := PropertyOf tagPolicy "id";
          export_policyName := PropertyOf tagPolicy "name";
          export_policyArn := PropertyOf tagPolicy "arn";
          supportedServiceCount := length SUPPORTED_SERVICES;
          requiredTagKeys := keys (requiredTags (config env));
          mode := enforcementMode (config env) |})%program.

End Index.

(* ================================================================== *)
(** ** Vocabulary of the statements *)

Module Views.

Import Js Pulumi Index.

(** The fields of an entry, in order. *)
Definition entry_fields (services : list string) (key tagKey : string)
           (allowedValues : list string) : Object value :=
  (("tag_key", VObject [("@@assign", VString tagKey)])
   :: match allowedValues with
      | [] => []
      | _ :: _ => [("tag_value", VObject [("@@assign", strings allowedValues)])]
      end
   ++ [(key, VObject [("@@assign", strings (all_supported services))])])%list.

(** The entries whose key is not [__proto__]. *)
Definition without_proto {V : Type} (o : Object V) : Object V :=
  filter (fun kv => negb (fst kv =? "__proto__")) o.

(** The entries of an object compiled one by one, in their order. *)
Definition compiled (services : list string) (key : string)
           (required : Object (list string)) : Object value :=
  map (fun kv => (fst kv, tag_entry services key (fst kv) (snd kv))) required.

Definition rename_field (old new : string) (fields : Object value) : Object value :=
  map (fun kv => (if fst kv =? old then new else fst kv, snd kv)) fields.

Definition rename_in_entry (old new : string) (entry : value) : value :=
  match entry with
  | VObject fields => VObject (rename_field old new fields)
  | other => other
  end.

(** The document with the field [old] of every tag entry renamed to
    [new]; nothing else is touched. *)
Definition rename_applicability (old new : string) (doc : value) : value :=
  match doc with
  | VObject [("tags", VObject labels)] =>
      VObject [("tags", VObject (map_values (rename_in_entry old new) labels))]
  | other => other
  end.

(** The policies and the attachments among the registered resources. *)
Definition policies (rs : list Resource) : list PolicyArgs :=
  flat_map (fun r => match r with Policy _ a => [a] | _ => [] end) rs.

Definition attachments (rs : list Resource) : list PolicyAttachmentArgs :=
  flat_map (fun r => match r with PolicyAttachment _ a => [a] | _ => [] end) rs.

(** What a run registered; nothing when it threw. *)
Definition registered {A : Type} (c : completion (A * list Resource)) : list Resource :=
  match c with Normal (_, rs) => rs | Throw _ => [] end.

(** Text with ['] standing for the double quote. *)
Fixpoint wire (s : string) : string :=
  match s with
  | EmptyString => EmptyString
  | String c s' => String (if Ascii.eqb c "'" then dquote else c) (wire s')
  end.

(** A stack configuration with the two keys the program reads. *)
Definition stack (enforcement : option string)
           (required : option (Object (list string))) : Config :=
  {| config_get := fun k => if k =? "enforcementMode" then enforcement else None;
     config_getObject := fun k => if k =? "requiredTags" then required else None |}.

Definition sample_required : Object (list string) :=
  [("Environment", ["Dev"; "Prod"]); ("Owner", [])].

Definition sample_document : value :=
  VObject
    [("tags",
      VObject
        [("Environment",
          VObject
            [("tag_key", VObject [("@@assign", VString "Environment")]);
             ("tag_value", VObject [("@@assign", VArray [VString "Dev"; VString "Prod"])]);
             ("*@@report_required_tag_for*",
              VObject [("@@assign",
                        VArray [VString "ec2:ALL_SUPPORTED"; VString "s3:ALL_SUPPORTED"])])]);
         ("Owner",
          VObject
            [("tag_key", VObject [("@@assign", VString "Owner")]);
             ("*@@report_required_tag_for*",
              VObject [("@@assign",
                        VArray [VString "ec2:ALL_SUPPORTED"; VString "s3:ALL_SUPPORTED"])])])])].

Definition sample_text : string :=
  wire ("{'tags':{'Environment':{'tag_key':{'@@assign':'Environment'},"
        ++ "'tag_value':{'@@assign':['Dev','Prod']},"
        ++ "'*@@report_required_tag_for*':{'@@assign':['ec2:ALL_SUPPORTED','s3:ALL_SUPPORTED']}},"
        ++ "'Owner':{'tag_key':{'@@assign':'Owner'},"
        ++ "'*@@report_required_tag_for*':{'@@assign':['ec2:ALL_SUPPORTED','s3:ALL_SUPPORTED']}}}}").

(** Environments used as concrete inputs. *)
Definition root (i : string) : Root := {| id := i |}.

Definition env_typo : Environment :=
  {| config := stack (Some "enforcd") None; roots := [root "r-ab12"] |}.

Definition blank_required : Object (list string) :=
  [("", [""]); ("  ", [" "])].

Definition env_blank : Environment :=
  {| config := stack None (Some blank_required); roots := [root "r-ab12"] |}.

Definition env_empty_mapping : Environment :=
  {| config := stack None (Some []); roots := [root "r-ab12"] |}.

Definition env_unset : Environment :=
  {| config := stack None None; roots := [root "r-ab12"] |}.

Definition env_empty_root : Environment :=
  {| config := stack None None; roots := [root ""] |}.

Definition env_preventive : Environment :=
  {| config := stack (Some "preventive") (Some sample_required); roots := [] |}.

(** The same two keys as [env_preventive], other keys and other roots. *)
Definition env_preventive_elsewhere : Environment :=
  {| config :=
       {| config_get := fun k =>
            if k =? "enforcementMode" then Some "preventive"
            else if k =? "aws:region" then Some "eu-west-1" else None;
          config_getObject := fun k =>
            if k =? "requiredTags" then Some sample_required
            else if k =? "extraTags" then Some [("Team", [])] else None |};
     roots := [root "r-ab12"; root "r-cd34"] |}.

End Views.

(* ================================================================== *)
(** ** Facts about objects *)

Module ObjectFacts.

Import Js.

Section Lookup.
Variable V : Type.
Implicit Types (o : Object V) (k : string) (v : V).

Lemma get_none_iff o k : get k o = None <-> ~ In k (keys o).
Proof.
  induction o as [|[k' v'] o IH]; simpl.
  - tauto.
  - destruct (String.eqb_spec k k') as [->|Hne].
    + split; [discriminate | intros H; exfalso; apply H; now left].
    + rewrite IH. split.
      * intros H [E|I]; [now apply Hne | now apply H].
      * intros H I. apply H. now right.
Qed.

Lemma has_false_iff o k : has k o = false <-> ~ In k (keys o).
Proof.
  unfold has. rewrite <- get_none_iff.
  destruct (get k o); split; congruence.
Qed.

Lemma get_replace o k k' v :
  get k (replace k' v o)
  = if k =? k' then option_map (fun _ => v) (get k o) else get k o.
Proof.
  induction o as [|[k0 v0] o IH]; simpl.
  - now destruct (k =? k').
  - destruct (String.eqb_spec k' k0) as [->|Hne]; simpl.
    + destruct (String.eqb_spec k k0); reflexivity.
    + rewrite IH. destruct (String.eqb_spec k k0) as [->|Hne'].
      * destruct (String.eqb_spec k0 k'); [congruence | reflexivity].
      * reflexivity.
Qed.

Lemma get_add_new o k k' v :
  get k' o = None ->
  get k (add_new k' v o) = if k =? k' then Some v else get k o.
Proof.
  induction o as [|[k0 v0] o IH]; simpl; intros Hfresh.
  - reflexivity.
  - destruct (String.eqb_spec k' k0) as [->|Hne]; [discriminate|].
    destruct (key_precedes k' k0); simpl.
    + reflexivity.
    + rewrite (IH Hfresh).
      destruct (String.eqb_spec k k0) as [->|Hne'].
      * destruct (String.eqb_spec k0 k'); [congruence | reflexivity].
      * reflexivity.
Qed.

(** Reading after writing. *)
Lemma get_set o k k' v :
  get k (set k' v o) = if k =? k' then Some v else get k o.
Proof.
  unfold set, has. destruct (get k' o) eqn:E.
  - rewrite get_replace. destruct (String.eqb_spec k k') as [->|]; [|reflexivity].
    now rewrite E.
  - now apply get_add_new.
Qed.

Lemma get_set_same o k v : get k (set k v o) = Some v.
Proof. now rewrite get_set, String.eqb_refl. Qed.

Lemma get_set_other o k k' v : k <> k' -> get k (set k' v o) = get k o.
Proof.
  intros H. rewrite get_set.
  destruct (String.eqb_spec k k'); [contradiction | reflexivity].
Qed.

(** *** Reading after an assignment *)

Lemma get_put_stored o k k' v :
  k' <> "__proto__" ->
  get k (put k' v o) = if k =? k' then Some v else get k o.
Proof.
  intros Hk. unfold put. destruct (has k' o) eqn:Hhas.
  - rewrite get_replace. destruct (String.eqb_spec k k') as [->|]; [|reflexivity].
    unfold has in Hhas. now destruct (get k' o).
  - destruct (String.eqb_spec k' "__proto__"); [contradiction|].
    apply get_add_new. unfold has in Hhas. now destruct (get k' o).
Qed.

Lemma get_put_other o k k' v : k <> k' -> get k (put k' v o) = get k o.
Proof.
  intros Hne. unfold put. destruct (has k' o) eqn:Hhas.
  - rewrite get_replace. destruct (String.eqb_spec k k'); [contradiction | reflexivity].
  - destruct (k' =? "__proto__"); [reflexivity|].
    rewrite get_add_new by (unfold has in Hhas; now destruct (get k' o)).
    destruct (String.eqb_spec k k'); [contradiction | reflexivity].
Qed.

(** What is read under a key after an assignment was just assigned to
    that key, or was there before. *)
Lemma get_put_cases o k k' v e :
  get k (put k' v o) = Some e -> (k = k' /\ e = v) \/ get k o = Some e.
Proof.
  destruct (String.eqb_spec k k') as [->|Hne].
  - unfold put. destruct (has k' o) eqn:Hhas.
    + rewrite get_replace, String.eqb_refl. unfold has in Hhas.
      destruct (get k' o); [|discriminate]. intros [= <-]. now left.
    + destruct (k' =? "__proto__"); [now right|].
      rewrite get_add_new by (unfold has in Hhas; now destruct (get k' o)).
      rewrite String.eqb_refl. intros [= <-]. now left.
  - rewrite (get_put_other o v Hne). now right.
Qed.

(** *** Where a fresh key lands *)

Lemma add_new_last o k v :
  (forall k', In k' (keys o) -> key_precedes k k' = false) ->
  add_new k v o = (o ++ [(k, v)])%list.
Proof.
  induction o as [|[k0 v0] o IH]; simpl; intros H.
  - reflexivity.
  - rewrite (H k0) by now left.
    f_equal. apply IH. intros k' I. apply H. now right.
Qed.

Lemma ordered_middle (p : Object V) k v o :
  ordered (p ++ (k, v) :: o)%list = true ->
  forall k', In k' (keys p) -> k' <> k /\ key_precedes k k' = false.
Proof.
  induction p as [|[k0 v0] p IH]; simpl; intros H k' I; [contradiction|].
  apply andb_true_iff in H. destruct H as [Hall Hrest].
  destruct I as [<-|I]; [|now apply (IH Hrest)].
  rewrite forallb_forall in Hall.
  specialize (Hall k). unfold keys in Hall.
  rewrite map_app in Hall. simpl in Hall.
  assert (Hin : In k (map fst p ++ k :: map fst o)%list)
    by (apply in_or_app; right; now left).
  apply Hall in Hin. apply andb_true_iff in Hin. destruct Hin as [Hne Hprec].
  split.
  - intros ->. now rewrite String.eqb_refl in Hne.
  - now destruct (key_precedes k k0).
Qed.

Lemma ordered_NoDup o : ordered o = true -> NoDup (keys o).
Proof.
  induction o as [|[k v] o IH]; simpl; intros H; constructor.
  - apply andb_true_iff in H. destruct H as [Hall _].
    rewrite forallb_forall in Hall. intros I. apply Hall in I.
    now rewrite String.eqb_refl in I.
  - apply andb_true_iff in H. now apply IH.
Qed.

End Lookup.

(** *** Maps over the values *)

Section Values.
Variables V W : Type.
Variable g : V -> W.

Lemma keys_map_values o : keys (map_values g o) = keys o.
Proof.
  unfold keys, map_values. rewrite map_map. reflexivity.
Qed.

Lemma get_map_values o k : get k (map_values g o) = option_map g (get k o).
Proof.
  induction o as [|[k0 v0] o IH]; simpl; [reflexivity|].
  now destruct (k =? k0).
Qed.

Lemma has_map_values o k : has k (map_values g o) = has k o.
Proof. unfold has. rewrite get_map_values. now destruct (get k o). Qed.

Lemma replace_map_values o k v :
  replace k (g v) (map_values g o) = map_values g (replace k v o).
Proof.
  induction o as [|[k0 v0] o IH]; simpl; [reflexivity|].
  destruct (k =? k0); simpl; [reflexivity | now rewrite IH].
Qed.

Lemma add_new_map_values o k v :
  add_new k (g v) (map_values g o) = map_values g (add_new k v o).
Proof.
  induction o as [|[k0 v0] o IH]; simpl; [reflexivity|].
  destruct (key_precedes k k0); simpl; [reflexivity | now rewrite IH].
Qed.

(** Writing commutes with a map over the values: where a key lands
    does not depend on what is stored. *)
Lemma set_map_values o k v :
  set k (g v) (map_values g o) = map_values g (set k v o).
Proof.
  unfold set. rewrite has_map_values.
  destruct (has k o); [apply replace_map_values | apply add_new_map_values].
Qed.

Lemma put_map_values o k v :
  put k (g v) (map_values g o) = map_values g (put k v o).
Proof.
  unfold put. rewrite has_map_values.
  destruct (has k o); [apply replace_map_values|].
  destruct (k =? "__proto__"); [reflexivity | apply add_new_map_values].
Qed.

End Values.

End ObjectFacts.

(* ================================================================== *)
(** ** Facts about the compiler *)

Module CompilerFacts.

Import Js Pulumi Index Views ObjectFacts.

(** The key chosen by the mode is one of the two field names, and neither
    is a field the entry already has. *)
Lemma enforcedForKey_cases m :
  (m = "detective" /\ enforcedForKey m = report_field)
  \/ (m <> "detective" /\ enforcedForKey m = enforce_field).
Proof.
  unfold enforcedForKey.
  destruct (String.eqb_spec m "detective"); [left | right]; split; auto.
Qed.

Lemma tag_entry_fields services m tagKey allowedValues :
  tag_entry services (enforcedForKey m) tagKey allowedValues
  = VObject (entry_fields services (enforcedForKey m) tagKey allowedValues).
Proof.
  destruct (enforcedForKey_cases m) as [[_ ->]|[_ ->]];
    destruct allowedValues; reflexivity.
Qed.

Section Fold.
Variable services : list string.
Variable key : string.

Lemma keys_compiled required :
  keys (compiled services key required) = keys required.
Proof. unfold keys, compiled. now rewrite map_map. Qed.

Lemma get_compiled required k :
  get k (compiled services key required)
  = option_map (tag_entry services key k) (get k required).
Proof.
  induction required as [|[k0 v0] o IH]; simpl; [reflexivity|].
  destruct (String.eqb_spec k k0) as [->|]; [reflexivity | exact IH].
Qed.

Lemma without_proto_app (V : Type) (o o' : Object V) :
  without_proto (o ++ o')%list = (without_proto o ++ without_proto o')%list.
Proof. apply filter_app. Qed.

Lemma In_keys_without_proto (V : Type) (o : Object V) k :
  In k (keys (without_proto o)) <-> In k (keys o) /\ k <> "__proto__".
Proof.
  induction o as [|[k0 v0] o IH]; simpl; [tauto|].
  destruct (String.eqb_spec k0 "__proto__") as [->|Hne]; simpl; rewrite IH.
  - split; [tauto|]. intros [[<-|I] Hk]; [contradiction | tauto].
  - split; [|tauto]. intros [<-|[I Hk]]; tauto.
Qed.

Lemma keys_without_proto (V : Type) (o : Object V) :
  keys (without_proto o) = filter (fun k => negb (k =? "__proto__")) (keys o).
Proof.
  induction o as [|[k0 v0] o IH]; simpl; [reflexivity|].
  destruct (k0 =? "__proto__"); simpl; now rewrite IH.
Qed.

Lemma get_without_proto (V : Type) (o : Object V) k :
  get k (without_proto o) = if k =? "__proto__" then None else get k o.
Proof.
  destruct (String.eqb_spec k "__proto__") as [Hk|Hk].
  - apply get_none_iff. intros I. apply In_keys_without_proto in I. tauto.
  - induction o as [|[k0 v0] o IH]; simpl; [reflexivity|].
    destruct (String.eqb_spec k0 "__proto__") as [E|E]; simpl.
    + destruct (String.eqb_spec k k0); [congruence | exact IH].
    + destruct (String.eqb_spec k k0); [reflexivity | exact IH].
Qed.

Lemma without_proto_none (V : Type) (o : Object V) :
  ~ In "__proto__" (keys o) -> without_proto o = o.
Proof.
  induction o as [|[k0 v0] o IH]; simpl; intros H; [reflexivity|].
  destruct (String.eqb_spec k0 "__proto__") as [->|]; simpl.
  - exfalso. apply H. now left.
  - f_equal. apply IH. intros I. apply H. now right.
Qed.

(** The accumulator of [reduce] after a prefix of an object's entries
    holds the compiled prefix without the entry named [__proto__], in the
    same order. *)
Lemma reduce_ordered rest :
  forall done,
    ordered (done ++ rest)%list = true ->
    fold_left (reducer services key) rest (compiled services key (without_proto done))
    = compiled services key (without_proto (done ++ rest)%list).
Proof.
  induction rest as [|[k vs] rest IH]; intros done Hord; simpl.
  - now rewrite app_nil_r.
  - assert (Hfresh : forall k', In k' (keys done) -> k' <> k /\ key_precedes k k' = false)
      by (apply (ordered_middle done k vs rest Hord)).
    assert (Hhas : has k (compiled services key (without_proto done)) = false).
    { apply has_false_iff. rewrite keys_compiled. intros I.
      apply In_keys_without_proto in I. now destruct (Hfresh k (proj1 I)). }
    assert (Hput : put k (tag_entry services key k vs)
                     (compiled services key (without_proto done))
                   = compiled services key (without_proto (done ++ [(k, vs)])%list)).
    { unfold put. rewrite Hhas, without_proto_app. simpl.
      destruct (k =? "__proto__"); simpl.
      - now rewrite app_nil_r.
      - rewrite add_new_last.
        + unfold compiled. now rewrite map_app.
        + intros k' I. rewrite keys_compiled in I.
          apply In_keys_without_proto in I. now destruct (Hfresh k' (proj1 I)). }
    rewrite Hput. rewrite IH; rewrite <- app_assoc; [reflexivity | exact Hord].
Qed.

(** On an object, [reduce] is a map over the entries not named
    [__proto__]. *)
Lemma tags_ordered required :
  ordered required = true ->
  tags services key required = compiled services key (without_proto required).
Proof.
  intros H. unfold tags, entries. exact (reduce_ordered required [] H).
Qed.

(** Whatever the list of entries, what is stored under a key was
    compiled from an entry of that key. *)
Lemma reduce_get rest :
  forall acc k e,
    get k (fold_left (reducer services key) rest acc) = Some e ->
    (exists vs, In (k, vs) rest /\ e = tag_entry services key k vs)
    \/ get k acc = Some e.
Proof.
  induction rest as [|[k0 vs0] rest IH]; intros acc k e H; simpl in H.
  - now right.
  - destruct (IH _ _ _ H) as [[vs [I E]]|G].
    + left. exists vs. split; [now right | exact E].
    + simpl in G. apply get_put_cases in G. destruct G as [[-> ->]|G].
      * left. exists vs0. split; [now left | reflexivity].
      * now right.
Qed.

End Fold.

(** *** The same document under another field name *)

Lemma tag_entry_renamed services tagKey allowedValues :
  tag_entry services enforce_field tagKey allowedValues
  = rename_in_entry report_field enforce_field
      (tag_entry services report_field tagKey allowedValues).
Proof. destruct allowedValues; reflexivity. Qed.

Lemma reduce_renamed services rest :
  forall acc,
    fold_left (reducer services enforce_field) rest
      (map_values (rename_in_entry report_field enforce_field) acc)
    = map_values (rename_in_entry report_field enforce_field)
        (fold_left (reducer services report_field) rest acc).
Proof.
  induction rest as [|[k vs] rest IH]; intros acc; simpl; [reflexivity|].
  rewrite tag_entry_renamed, put_map_values. apply IH.
Qed.

End CompilerFacts.

(* ================================================================== *)
(** ** Facts about a run of the module *)

Module ProgramFacts.

Import Js Pulumi Index Views.

(** The module body has no [throw]: every run completes, having
    registered the policy and then its attachment. *)
Lemma main_runs env :
  run (main env)
  = Normal
      ({| export_policyId := PropertyOf "required-tags-policy" "id";
          export_policyName := PropertyOf "required-tags-policy" "name";
          export_policyArn := PropertyOf "required-tags-policy" "arn";
          supportedServiceCount := length SUPPORTED_SERVICES;
          requiredTagKeys := keys (requiredTags (config env));
          mode := enforcementMode (config env) |},
       [ Policy "required-tags-policy" (policy_args (config env));
         PolicyAttachment "required-tags-attachment"
           {| policyId := PropertyOf "required-tags-policy" "id";
              targetId := first_root_id (roots env) |} ]).
Proof. reflexivity. Qed.

Lemma tagPolicyContent_tags services key required :
  tagPolicyContent services key required
  = VObject [("tags", VObject (tags services key required))].
Proof. reflexivity. Qed.

Lemma rename_applicability_tags old new labels :
  rename_applicability old new (VObject [("tags", VObject labels)])
  = VObject [("tags", VObject (map_values (rename_in_entry old new) labels))].
Proof. reflexivity. Qed.

End ProgramFacts.

Import Js Pulumi Index Views ObjectFacts CompilerFacts ProgramFacts.

(* ================================================================== *)
(** ** The properties *)

(** C2.  The mapping [{"Environment": ["Dev","Prod"], "Owner": []}],
    compiled with the report field (the field the program selects for its
    report mode, ["detective"]) against the catalog [["ec2","s3"]], is
    exactly the document of the specification: as a structure, and as the
    text [JSON.stringify] gives for it without indentation. *)
Theorem C2_example_document :
  tagPolicyContent ["ec2"; "s3"] (enforcedForKey "detective") sample_required
  = sample_document
  /\ JSON_stringify
       (tagPolicyContent ["ec2"; "s3"] (enforcedForKey "detective") sample_required) 0
     = sample_text.
Proof. split; vm_compute; reflexivity. Qed.

(** C4.  In the document compiled from an object [required], the entry
    of a label has a [tag_value] field assigning exactly the allowed
    values of that label, in their order, when there are some, and no
    [tag_value] field at all when there are none; and every label of
    [required] not named [__proto__] has its entry. *)
Theorem C4_tag_value_only_when_restricted :
  forall services m required,
    ordered required = true ->
    (forall label entry,
        get label (tags services (enforcedForKey m) required) = Some entry ->
        exists allowedValues fields,
          get label required = Some allowedValues
          /\ entry = VObject fields
          /\ get "tag_value" fields
             = match allowedValues with
               | [] => None
               | _ :: _ => Some (VObject [("@@assign", VArray (map VString allowedValues))])
               end)
    /\ (forall label allowedValues,
          get label required = Some allowedValues ->
          label <> "__proto__" ->
          exists entry,
            get label (tags services (enforcedForKey m) required) = Some entry).
Proof.
  intros services m required Hord.
  rewrite (tags_ordered services (enforcedForKey m) required Hord).
  split.
  - intros label entry H. rewrite get_compiled, get_without_proto in H.
    destruct (label =? "__proto__"); [discriminate|].
    destruct (get label required) as [vs|]; [|discriminate].
    injection H as <-.
    exists vs, (entry_fields services (enforcedForKey m) label vs).
    split; [reflexivity|]. split; [apply tag_entry_fields|].
    destruct (enforcedForKey_cases m) as [[_ ->]|[_ ->]]; destruct vs; reflexivity.
  - intros label vs H Hne. rewrite get_compiled, get_without_proto.
    destruct (String.eqb_spec label "__proto__"); [contradiction|].
    rewrite H. eexists. reflexivity.
Qed.

Lemma C4_witness :
  ordered sample_required = true
  /\ get "Environment" (tags ["ec2"] (enforcedForKey "preventive") sample_required)
     = Some (tag_entry ["ec2"] "enforced_for" "Environment" ["Dev"; "Prod"])
  /\ (exists allowedValues fields,
        get "Environment" sample_required = Some allowedValues
        /\ tag_entry ["ec2"] "enforced_for" "Environment" ["Dev"; "Prod"] = VObject fields
        /\ get "tag_value" fields
           = match allowedValues with
             | [] => None
             | _ :: _ => Some (VObject [("@@assign", VArray (map VString allowedValues))])
             end)
  /\ get "Owner" sample_required = Some []
  /\ "Owner" <> "__proto__"
  /\ exists entry,
      get "Owner" (tags ["ec2"] (enforcedForKey "preventive") sample_required) = Some entry.
Proof.
  split; [reflexivity|]. split; [reflexivity|].
  split.
  - apply (proj1 (C4_tag_value_only_when_restricted ["ec2"] "preventive"
                    sample_required eq_refl) "Environment").
    reflexivity.
  - split; [reflexivity|]. split; [discriminate|].
    apply (proj2 (C4_tag_value_only_when_restricted ["ec2"] "preventive"
                    sample_required eq_refl) "Owner" []).
    + reflexivity.
    + discriminate.
Defined.

(** C5.  Every entry of the compiled document carries, under the field
    chosen by the mode, the list of the catalog's services each followed by
    [:ALL_SUPPORTED], in catalog order; the list does not depend on the
    label or on its allowed values. *)
Theorem C5_applicability_is_catalog :
  forall services m required label entry,
    get label (tags services (enforcedForKey m) required) = Some entry ->
    exists fields,
      entry = VObject fields
      /\ get (enforcedForKey m) fields
         = Some (VObject
                   [("@@assign",
                     VArray (map VString
                               (map (fun service => service ++ ":ALL_SUPPORTED") services)))]).
Proof.
  intros services m required label entry H.
  apply reduce_get in H. destruct H as [[vs [_ ->]]|H]; [|discriminate].
  unfold tag_entry. eexists. split; [reflexivity|]. apply get_set_same.
Qed.

Lemma C5_witness :
  get "Owner" (tags ["ec2"; "s3"] (enforcedForKey "detective") sample_required)
  = Some (tag_entry ["ec2"; "s3"] report_field "Owner" [])
  /\ exists fields,
      tag_entry ["ec2"; "s3"] report_field "Owner" [] = VObject fields
      /\ get (enforcedForKey "detective") fields
         = Some (VObject
                   [("@@assign",
                     VArray (map VString
                               (map (fun service => service ++ ":ALL_SUPPORTED")
                                  ["ec2"; "s3"])))]).
Proof.
  split; [reflexivity|].
  apply (C5_applicability_is_catalog ["ec2"; "s3"] "detective" sample_required "Owner").
  reflexivity.
Defined.

(** C6.  For every catalog and every required-tags object, the document
    compiled under a mode other than ["detective"] is the document compiled
    under ["detective"] with the field [*@@report_required_tag_for*] of each
    entry renamed to [enforced_for]: same labels, same fields in the same
    places, same values. *)
Theorem C6_mode_changes_field_name_only :
  forall services required m,
    m <> "detective" ->
    tagPolicyContent services (enforcedForKey m) required
    = rename_applicability "*@@report_required_tag_for*" "enforced_for"
        (tagPolicyContent services (enforcedForKey "detective") required).
Proof.
  intros services required m Hm.
  destruct (enforcedForKey_cases m) as [[E _]|[_ ->]]; [contradiction|].
  change (enforcedForKey "detective") with report_field.
  rewrite !tagPolicyContent_tags, rename_applicability_tags.
  do 4 f_equal.
  exact (reduce_renamed services required []).
Qed.

Lemma C6_witness :
  "preventive" <> "detective"
  /\ tagPolicyContent ["ec2"; "s3"] (enforcedForKey "preventive") sample_required
     = rename_applicability "*@@report_required_tag_for*" "enforced_for"
         (tagPolicyContent ["ec2"; "s3"] (enforcedForKey "detective") sample_required).
Proof.
  split; [discriminate|].
  apply (C6_mode_changes_field_name_only ["ec2"; "s3"] sample_required).
  discriminate.
Defined.

(** C7.  The text of the policy a run registers is a function of the two
    configuration values the compiler reads (the catalog being a constant
    of the module): two runs whose [requiredTags] and [enforcementMode]
    agree register one policy each, with the same text, whatever else
    differs between them. *)
Theorem C7_same_inputs_same_text :
  forall env1 env2,
    config_getObject (config env1) "requiredTags"
    = config_getObject (config env2) "requiredTags" ->
    config_get (config env1) "enforcementMode"
    = config_get (config env2) "enforcementMode" ->
    exists text,
      map content (policies (registered (run (main env1)))) = [text]
      /\ map content (policies (registered (run (main env2)))) = [text]
      /\ text = JSON_stringify
                  (tagPolicyContent SUPPORTED_SERVICES
                     (enforcedForKey (enforcementMode (config env1)))
                     (requiredTags (config env1))) 2.
Proof.
  intros env1 env2 Hreq Hmode.
  rewrite !main_runs. eexists. split; [reflexivity|]. split; [|reflexivity].
  cbn [registered policies flat_map map app content policy_args].
  unfold requiredTags, enforcementMode. now rewrite Hreq, Hmode.
Qed.

Lemma C7_witness :
  config_getObject (config env_preventive) "requiredTags"
  = config_getObject (config env_preventive_elsewhere) "requiredTags"
  /\ config_get (config env_preventive) "enforcementMode"
     = config_get (config env_preventive_elsewhere) "enforcementMode"
  /\ exists text,
      map content (policies (registered (run (main env_preventive)))) = [text]
      /\ map content (policies (registered (run (main env_preventive_elsewhere)))) = [text]
      /\ text = JSON_stringify
                  (tagPolicyContent SUPPORTED_SERVICES
                     (enforcedForKey (enforcementMode (config env_preventive)))
                     (requiredTags (config env_preventive))) 2.
Proof.
  split; [reflexivity|]. split; [reflexivity|].
  apply (C7_same_inputs_same_text env_preventive env_preventive_elsewhere);
    reflexivity.
Defined.

(** C8 as the specification words it: a [requiredTags] mapping that is
    present and empty is kept, it does not fall back to the default set;
    the run then exports no tag key. *)
Lemma C8_counterexample :
  config_getObject (config env_empty_mapping) "requiredTags" = Some []
  /\ requiredTags (config env_empty_mapping) = []
  /\ requiredTags (config env_empty_mapping) <> default_requiredTags
  /\ tags SUPPORTED_SERVICES
       (enforcedForKey (enforcementMode (config env_empty_mapping)))
       (requiredTags (config env_empty_mapping)) = [].
Proof. repeat split; try reflexivity. discriminate. Qed.

(** C8, amended.  When the [requiredTags] key is not set, the required set
    is the built-in one: [Environment] with its three values, then
    [Owner], [CostCenter] and [Project] without restriction.  A mapping
    that is set, empty or not, is used as it is. *)
Theorem C8_default_when_unset :
  forall cfg,
    (config_getObject cfg "requiredTags" = None ->
     requiredTags cfg
     = [ ("Environment", ["Development"; "Staging"; "Production"]);
         ("Owner", []); ("CostCenter", []); ("Project", []) ])
    /\ (forall given,
          config_getObject cfg "requiredTags" = Some given ->
          requiredTags cfg = given).
Proof.
  intros cfg. unfold requiredTags. split.
  - intros ->. reflexivity.
  - intros given ->. reflexivity.
Qed.

Lemma C8_witness :
  config_getObject (config env_unset) "requiredTags" = None
  /\ requiredTags (config env_unset)
     = [ ("Environment", ["Development"; "Staging"; "Production"]);
         ("Owner", []); ("CostCenter", []); ("Project", []) ]
  /\ config_getObject (config env_preventive) "requiredTags" = Some sample_required
  /\ requiredTags (config env_preventive) = sample_required.
Proof.
  split; [reflexivity|]. split.
  - apply (proj1 (C8_default_when_unset (config env_unset))). reflexivity.
  - split; [reflexivity|].
    apply (proj2 (C8_default_when_unset (config env_preventive))). reflexivity.
Defined.

(** C9 as the specification words it: a root whose id is the empty string
    is not rejected; the run completes and registers the attachment with
    the empty target. *)
Lemma C9_counterexample :
  first_root_id (roots env_empty_root) = Resolved (Some "")
  /\ (exists result, run (main env_empty_root) = Normal result)
  /\ attachments (registered (run (main env_empty_root)))
     = [ {| policyId := PropertyOf "required-tags-policy" "id";
            targetId := Resolved (Some "") |} ].
Proof.
  split; [reflexivity|]. split; [|reflexivity].
  eexists. apply main_runs.
Qed.

(** C9, amended.  No run rejects its target: every run completes, and
    registers exactly one policy and, after it, exactly one attachment,
    which pairs the id of that policy with the id of the first root of the
    organization, whatever that id is. *)
Theorem C9_one_attachment_to_first_root :
  forall env,
    exists exports,
      run (main env)
      = Normal (exports,
                [ Policy "required-tags-policy" (policy_args (config env));
                  PolicyAttachment "required-tags-attachment"
                    {| policyId := PropertyOf "required-tags-policy" "id";
                       targetId := Resolved (option_map id (nth_error (roots env) 0)) |} ])
      /\ export_policyId exports = PropertyOf "required-tags-policy" "id"
      /\ length (policies (registered (run (main env)))) = 1
      /\ attachments (registered (run (main env)))
         = [ {| policyId := PropertyOf "required-tags-policy" "id";
                targetId := Resolved (option_map id (nth_error (roots env) 0)) |} ].
Proof.
  intros env. rewrite main_runs. eexists. repeat split.
Qed.

(** C1 as the specification words it: the misspelt mode ["enforcd"] is
    not rejected; the run completes, exports the string as its mode and
    compiles under the enforcing field. *)
Lemma C1_counterexample :
  config_get (config env_typo) "enforcementMode" = Some "enforcd"
  /\ enforcementMode (config env_typo) = "enforcd"
  /\ enforcedForKey (enforcementMode (config env_typo)) = "enforced_for"
  /\ exists exports resources,
      run (main env_typo) = Normal (exports, resources)
      /\ mode exports = "enforcd".
Proof.
  repeat split. do 2 eexists. split; [apply main_runs | reflexivity].
Qed.

(** C1, amended.  No mode string is rejected: every run completes and
    exports the resolved mode.  A value that is not set resolves to
    ["detective"] and the report field; the string ["detective"] selects
    the report field; every other non-empty string is kept as the mode and
    selects the field [enforced_for]. *)
Theorem C1_no_mode_string_is_rejected :
  forall env,
    exists exports resources,
      run (main env) = Normal (exports, resources)
      /\ mode exports = enforcementMode (config env)
      /\ (config_get (config env) "enforcementMode" = None ->
          mode exports = "detective"
          /\ enforcedForKey (mode exports) = "*@@report_required_tag_for*")
      /\ (config_get (config env) "enforcementMode" = Some "detective" ->
          enforcedForKey (mode exports) = "*@@report_required_tag_for*")
      /\ (forall raw,
            config_get (config env) "enforcementMode" = Some raw ->
            raw <> "" -> raw <> "detective" ->
            mode exports = raw /\ enforcedForKey (mode exports) = "enforced_for").
Proof.
  intros env. do 2 eexists. split; [apply main_runs|].
  cbn [mode]. unfold enforcementMode, or_string.
  split; [reflexivity|]. split; [|split].
  - intros ->. split; reflexivity.
  - intros ->. reflexivity.
  - intros raw -> Hne Hnd.
    destruct (String.eqb_spec raw ""); [contradiction|].
    split; [reflexivity|].
    unfold enforcedForKey. destruct (String.eqb_spec raw "detective"); [contradiction|].
    reflexivity.
Qed.

Lemma C1_witness :
  exists exports resources,
    run (main env_typo) = Normal (exports, resources)
    /\ config_get (config env_typo) "enforcementMode" = Some "enforcd"
    /\ "enforcd" <> "" /\ "enforcd" <> "detective"
    /\ mode exports = "enforcd"
    /\ enforcedForKey (mode exports) = "enforced_for".
Proof.
  destruct (C1_no_mode_string_is_rejected env_typo)
    as (exports & resources & Hrun & _ & _ & _ & Hother).
  exists exports, resources.
  split; [exact Hrun|]. split; [reflexivity|].
  split; [discriminate|]. split; [discriminate|].
  apply (Hother "enforcd"); [reflexivity | discriminate | discriminate].
Defined.

(** C3 as the specification words it: a mapping with an empty label name,
    a blank label name, an empty allowed value and a blank allowed value is
    not rejected; the run completes and the policy it registers holds an
    entry for each of these labels, with these values. *)
Lemma C3_counterexample :
  config_getObject (config env_blank) "requiredTags"
  = Some [("", [""]); ("  ", [" "])]
  /\ (exists result, run (main env_blank) = Normal result)
  /\ map content (policies (registered (run (main env_blank))))
     = [ JSON_stringify
           (VObject
              [("tags",
                VObject
                  [ ("", VObject
                           [ ("tag_key", VObject [("@@assign", VString "")]);
                             ("tag_value", VObject [("@@assign", VArray [VString ""])]);
                             ("*@@report_required_tag_for*",
                              VObject [("@@assign", strings (all_supported SUPPORTED_SERVICES))]) ]);
                    ("  ", VObject
                             [ ("tag_key", VObject [("@@assign", VString "  ")]);
                               ("tag_value", VObject [("@@assign", VArray [VString " "])]);
                               ("*@@report_required_tag_for*",
                                VObject [("@@assign", strings (all_supported SUPPORTED_SERVICES))]) ]) ])]) 2 ].
Proof.
  split; [reflexivity|]. split; [eexists; apply main_runs|].
  vm_compute. reflexivity.
Qed.

(** C3, amended.  The program validates nothing and rejects nothing: for
    every configuration the run completes and registers the policy.  When
    no label of the mapping is named [__proto__], the text of that policy
    is the document with one entry per label of the mapping, in the
    mapping's order, each label compiled from its name and its allowed
    values as they are, empty or blank ones included.  (An object holds a
    name once, so a repeated name does not reach the program.) *)
Theorem C3_no_mapping_is_rejected :
  forall env,
    exists exports attachment,
      run (main env)
      = Normal (exports,
                [ Policy "required-tags-policy" (policy_args (config env)); attachment ])
      /\ requiredTagKeys exports = keys (requiredTags (config env))
      /\ (ordered (requiredTags (config env)) = true ->
          ~ In "__proto__" (keys (requiredTags (config env))) ->
          content (policy_args (config env))
          = JSON_stringify
              (VObject
                 [("tags",
                   VObject
                     (map (fun entry =>
                             (fst entry,
                              tag_entry SUPPORTED_SERVICES
                                (enforcedForKey (enforcementMode (config env)))
                                (fst entry) (snd entry)))
                        (requiredTags (config env))))]) 2).
Proof.
  intros env. do 2 eexists. split; [apply main_runs|].
  split; [reflexivity|]. intros Hord Hproto.
  cbn [content policy_args].
  rewrite tagPolicyContent_tags, (tags_ordered _ _ _ Hord).
  rewrite (without_proto_none _ Hproto). reflexivity.
Qed.

Lemma C3_witness :
  exists exports attachment,
    run (main env_blank)
    = Normal (exports,
              [ Policy "required-tags-policy" (policy_args (config env_blank)); attachment ])
    /\ requiredTagKeys exports = keys (requiredTags (config env_blank))
    /\ ordered (requiredTags (config env_blank)) = true
    /\ ~ In "__proto__" (keys (requiredTags (config env_blank)))
    /\ content (policy_args (config env_blank))
       = JSON_stringify
           (VObject
              [("tags",
                VObject
                  (map (fun entry =>
                          (fst entry,
                           tag_entry SUPPORTED_SERVICES
                             (enforcedForKey (enforcementMode (config env_blank)))
                             (fst entry) (snd entry)))
                     (requiredTags (config env_blank))))]) 2.
Proof.
  destruct (C3_no_mapping_is_rejected env_blank)
    as (exports & attachment & Hrun & Hkeys & Hdoc).
  assert (Hproto : ~ In "__proto__" (keys (requiredTags (config env_blank)))).
  { simpl. intros [H|[H|[]]]; discriminate. }
  exists exports, attachment.
  split; [exact Hrun|]. split; [exact Hkeys|].
  split; [reflexivity|]. split; [exact Hproto|].
  apply Hdoc; [reflexivity | exact Hproto].
Defined.

(** C10.  Mode resolution is total and raises nothing.  A value that is
    not set, or set to the empty string, resolves to ["detective"] and the
    field [*@@report_required_tag_for*]; the string ["detective"] selects
    that field; every other non-empty string, among them ["preventive"],
    ["report"], ["enforce"] and the misspelt ["enforcd"], selects the field
    [enforced_for]; and the run completes whatever the value. *)
Theorem C10_mode_resolution_is_total :
  forall cfg,
    (config_get cfg "enforcementMode" = None
     \/ config_get cfg "enforcementMode" = Some "" ->
     enforcementMode cfg = "detective"
     /\ enforcedForKey (enforcementMode cfg) = "*@@report_required_tag_for*")
    /\ (config_get cfg "enforcementMode" = Some "detective" ->
        enforcedForKey (enforcementMode cfg) = "*@@report_required_tag_for*")
    /\ (forall raw,
          config_get cfg "enforcementMode" = Some raw ->
          raw <> "" -> raw <> "detective" ->
          enforcementMode cfg = raw
          /\ enforcedForKey (enforcementMode cfg) = "enforced_for")
    /\ (forall raw,
          In raw ["preventive"; "report"; "enforce"; "enforcd"] ->
          enforcedForKey (or_string (Some raw) "detective") = "enforced_for")
    /\ (forall rs, exists result, run (main {| config := cfg; roots := rs |}) = Normal result).
Proof.
  intros cfg. unfold enforcementMode, or_string.
  split; [|split; [|split; [|split]]].
  - intros [-> | ->]; split; reflexivity.
  - intros ->. reflexivity.
  - intros raw -> Hne Hnd.
    destruct (String.eqb_spec raw ""); [contradiction|].
    split; [reflexivity|].
    unfold enforcedForKey.
    destruct (String.eqb_spec raw "detective"); [contradiction | reflexivity].
  - intros raw H. simpl in H. intuition (subst; reflexivity).
  - intros rs. eexists. apply main_runs.
Qed.

Lemma C10_witness :
  config_get (stack (Some "report") None) "enforcementMode" = Some "report"
  /\ "report" <> "" /\ "report" <> "detective"
  /\ enforcementMode (stack (Some "report") None) = "report"
  /\ enforcedForKey (enforcementMode (stack (Some "report") None)) = "enforced_for"
  /\ (config_get (stack (Some "") None) "enforcementMode" = None
      \/ config_get (stack (Some "") None) "enforcementMode" = Some "")
  /\ enforcementMode (stack (Some "") None) = "detective"
  /\ enforcedForKey (enforcementMode (stack (Some "") None))
     = "*@@report_required_tag_for*".
Proof.
  split; [reflexivity|]. split; [discriminate|]. split; [discriminate|].
  destruct (C10_mode_resolution_is_total (stack (Some "report") None))
    as (_ & _ & Hother & _).
  destruct (Hother "report") as [Hmode Hkey];
    [reflexivity | discriminate | discriminate |].
  split; [exact Hmode|]. split; [exact Hkey|].
  split; [right; reflexivity|].
  apply (proj1 (C10_mode_resolution_is_total (stack (Some "") None))).
  right. reflexivity.
Defined.


(* ================================================================== *)
(** ** Further facts: the key order under assignment *)

Module OrderFacts.

Import Js ObjectFacts.

Lemma key_precedes_asym k k' :
  key_precedes k k' = true -> key_precedes k' k = false.
Proof.
  unfold key_precedes.
  destruct (array_index k) as [n|], (array_index k') as [n'|];
    try discriminate; try reflexivity.
  intros H. apply N.ltb_lt in H. apply N.ltb_ge. lia.
Qed.

(** A key that does not come before [k1] does not come before a key
    that itself comes before [k1]. *)
Lemma key_precedes_below k k1 k' :
  key_precedes k k1 = true ->
  key_precedes k' k1 = false ->
  key_precedes k' k = false.
Proof.
  unfold key_precedes.
  destruct (array_index k) as [n|], (array_index k1) as [n1|],
           (array_index k') as [n'|];
    try discriminate; try reflexivity.
  intros H1 H2. apply N.ltb_lt in H1. apply N.ltb_ge in H2. apply N.ltb_ge. lia.
Qed.

Section Shape.
Variable V : Type.
Implicit Types (o : Object V) (k : string) (v : V).

Lemma ordered_cons k v o :
  ordered ((k, v) :: o) = true
  <-> (forall k', In k' (keys o) -> k <> k' /\ key_precedes k' k = false)
      /\ ordered o = true.
Proof.
  simpl. rewrite andb_true_iff, forallb_forall. split.
  - intros [Hall Ho]. split; [|exact Ho]. intros k' I.
    specialize (Hall k' I). apply andb_true_iff in Hall. destruct Hall as [Hne Hp].
    split.
    + intros ->. now rewrite String.eqb_refl in Hne.
    + now destruct (key_precedes k' k).
  - intros [Hall Ho]. split; [|exact Ho]. intros k' I.
    destruct (Hall k' I) as [Hne Hp]. rewrite Hp.
    destruct (String.eqb_spec k k'); [contradiction | reflexivity].
Qed.

Lemma keys_replace o k v : keys (replace k v o) = keys o.
Proof.
  induction o as [|[k0 v0] o IH]; simpl; [reflexivity|].
  destruct (k =? k0); simpl; [reflexivity | now rewrite IH].
Qed.

Lemma In_keys_add_new o k v k' :
  In k' (keys (add_new k v o)) <-> k' = k \/ In k' (keys o).
Proof.
  induction o as [|[k0 v0] o IH]; simpl.
  - intuition.
  - destruct (key_precedes k k0); simpl; [intuition|].
    rewrite IH. intuition.
Qed.

Lemma ordered_same_keys o o' : keys o = keys o' -> ordered o = ordered o'.
Proof.
  revert o'. induction o as [|[k v] o IH]; intros [|[k' v'] o'] E;
    try discriminate; [reflexivity|].
  simpl in E. injection E as -> E. simpl. rewrite E. f_equal. now apply IH.
Qed.

Lemma ordered_add_new o k v :
  ordered o = true -> ~ In k (keys o) -> ordered (add_new k v o) = true.
Proof.
  induction o as [|[k0 v0] o IH]; intros Hord Hfresh.
  - reflexivity.
  - simpl. destruct (key_precedes k k0) eqn:Hp.
    + apply ordered_cons. split; [|exact Hord].
      apply ordered_cons in Hord. destruct Hord as [Hall _].
      intros k' I. split.
      * intros ->. now apply Hfresh.
      * destruct I as [<-|I].
        -- now apply key_precedes_asym.
        -- apply (key_precedes_below k k0 k' Hp). now apply Hall.
    + apply ordered_cons in Hord. destruct Hord as [Hall Ho].
      apply ordered_cons. split.
      * intros k' I. apply In_keys_add_new in I. destruct I as [->|I].
        -- split; [|exact Hp]. intros ->. apply Hfresh. now left.
        -- now apply Hall.
      * apply IH; [exact Ho|]. intros I. apply Hfresh. now right.
Qed.

Lemma ordered_after_put o k v : ordered o = true -> ordered (put k v o) = true.
Proof.
  intros Hord. unfold put. destruct (has k o) eqn:Hhas.
  - rewrite (ordered_same_keys (replace k v o) o (keys_replace o k v)). exact Hord.
  - destruct (k =? "__proto__"); [exact Hord|].
    apply ordered_add_new; [exact Hord|]. now apply has_false_iff.
Qed.

Lemma has_true_In o k : has k o = true -> In k (keys o).
Proof.
  intros Hhas. destruct (in_dec string_dec k (keys o)) as [I|N]; [exact I|].
  apply has_false_iff in N. congruence.
Qed.

Lemma In_keys_put o k v k' :
  In k' (keys (put k v o)) <-> In k' (keys o) \/ (k' = k /\ k <> "__proto__").
Proof.
  unfold put. destruct (has k o) eqn:Hhas.
  - rewrite keys_replace. split; [now left|].
    intros [I|[-> _]]; [exact I | now apply has_true_In].
  - destruct (String.eqb_spec k "__proto__") as [Hk|Hk].
    + split; [now left|]. intros [I|[_ N]]; [exact I | contradiction].
    + rewrite In_keys_add_new. split.
      * intros [->|I]; [right; now split | now left].
      * intros [I|[-> _]]; [now right | now left].
Qed.

End Shape.

End OrderFacts.

Import OrderFacts.

(* ================================================================== *)
(** ** Further properties of the program *)

(** X1.  The assignment [o[k] = v] keeps the own properties of an object
    well formed: after it no own key occurs twice and the array-index keys
    still come first, in ascending order.  The own keys are those of [o],
    and [k] unless [k] is [__proto__]; when [k] was already an own key the
    order of the keys is unchanged; and assigning to [__proto__] an object
    that has no own property of that name leaves its own properties as
    they were. *)
Theorem put_keeps_object_shape :
  forall (V : Type) (o : Object V) (k : string) (v : V),
    ordered o = true ->
    ordered (put k v o) = true
    /\ NoDup (keys (put k v o))
    /\ (forall k', In k' (keys (put k v o))
                   <-> In k' (keys o) \/ (k' = k /\ k <> "__proto__"))
    /\ (In k (keys o) -> keys (put k v o) = keys o)
    /\ (~ In "__proto__" (keys o) -> put "__proto__" v o = o).
Proof.
  intros V o k v Hord.
  assert (Hput : ordered (put k v o) = true) by now apply ordered_after_put.
  split; [exact Hput|]. split; [now apply ordered_NoDup|].
  split; [intros k'; apply In_keys_put|]. split.
  - intros I. unfold put.
    destruct (has k o) eqn:Hhas; [apply keys_replace|].
    apply has_false_iff in Hhas. contradiction.
  - intros N. unfold put. apply has_false_iff in N. now rewrite N.
Qed.

Lemma put_keeps_object_shape_witness :
  ordered [("2", 20); ("10", 100); ("b", 1); ("a", 2)] = true
  /\ put "7" 70 [("2", 20); ("10", 100); ("b", 1); ("a", 2)]
     = [("2", 20); ("7", 70); ("10", 100); ("b", 1); ("a", 2)]
  /\ ordered (put "7" 70 [("2", 20); ("10", 100); ("b", 1); ("a", 2)]) = true
  /\ In "b" (keys [("2", 20); ("10", 100); ("b", 1); ("a", 2)])
  /\ keys (put "b" 5 [("2", 20); ("10", 100); ("b", 1); ("a", 2)])
     = keys [("2", 20); ("10", 100); ("b", 1); ("a", 2)]
  /\ ~ In "__proto__" (keys [("2", 20); ("10", 100); ("b", 1); ("a", 2)])
  /\ put "__proto__" 9 [("2", 20); ("10", 100); ("b", 1); ("a", 2)]
     = [("2", 20); ("10", 100); ("b", 1); ("a", 2)].
Proof.
  assert (N : ~ In "__proto__" (keys [("2", 20); ("10", 100); ("b", 1); ("a", 2)])).
  { simpl. intros [H|[H|[H|[H|[]]]]]; discriminate. }
  split; [reflexivity|]. split; [reflexivity|].
  split.
  - apply (put_keeps_object_shape [("2", 20); ("10", 100); ("b", 1); ("a", 2)]
             "7" 70 eq_refl).
  - split; [simpl; tauto|]. split.
    + apply (put_keeps_object_shape [("2", 20); ("10", 100); ("b", 1); ("a", 2)]
               "b" 5 eq_refl).
      simpl; tauto.
    + split; [exact N|].
      apply (put_keeps_object_shape [("2", 20); ("10", 100); ("b", 1); ("a", 2)]
               "b" 9 eq_refl).
      exact N.
Defined.

(** X2.  The own properties after the assignment [o[k] = v]: every own
    property under another key is as before; when [k] is not [__proto__],
    the own property [k] holds [v], and a second assignment to [k] leaves
    only the later value and adds no key; and an object without an own
    property [__proto__] still has none after an assignment to it. *)
Theorem own_properties_after_put :
  forall (V : Type) (o : Object V) (k : string) (v w : V),
    (forall k', k' <> k -> get k' (put k v o) = get k' o)
    /\ (k <> "__proto__" ->
        get k (put k v o) = Some v
        /\ get k (put k w (put k v o)) = Some w
        /\ keys (put k w (put k v o)) = keys (put k v o))
    /\ (get "__proto__" o = None -> get "__proto__" (put "__proto__" v o) = None).
Proof.
  intros V o k v w.
  split; [intros k' Hne; now apply get_put_other|]. split.
  - intros Hk.
    assert (Hget : forall (x : V) (o' : Object V), get k (put k x o') = Some x)
      by (intros x o'; now rewrite get_put_stored, String.eqb_refl).
    split; [apply Hget|]. split; [apply Hget|].
    unfold put at 1. unfold has. rewrite Hget. apply keys_replace.
  - intros Hnone. unfold put, has. now rewrite Hnone.
Qed.

Lemma own_properties_after_put_witness :
  "2" <> "b"
  /\ get "2" (put "b" 5 [("2", 20); ("b", 1)]) = get "2" [("2", 20); ("b", 1)]
  /\ "b" <> "__proto__"
  /\ get "b" (put "b" 5 [("2", 20); ("b", 1)]) = Some 5
  /\ get "b" (put "b" 6 (put "b" 5 [("2", 20); ("b", 1)])) = Some 6
  /\ get "__proto__" [("2", 20); ("b", 1)] = None
  /\ get "__proto__" (put "__proto__" 7 [("2", 20); ("b", 1)]) = None.
Proof.
  destruct (own_properties_after_put [("2", 20); ("b", 1)] "b" 5 6) as (H1 & H2 & _).
  destruct (own_properties_after_put [("2", 20); ("b", 1)] "__proto__" 7 7) as (_ & _ & H3).
  split; [discriminate|]. split; [apply H1; discriminate|].
  split; [discriminate|].
  destruct H2 as (Ha & Hb & _); [discriminate|].
  split; [exact Ha|]. split; [exact Hb|].
  split; [reflexivity|]. apply H3. reflexivity.
Defined.

(* ================================================================== *)
(** ** Further facts: what [reduce] builds *)

Module ReduceFacts.

Import Js Index ObjectFacts OrderFacts CompilerFacts.

Section Fold.
Variable services : list string.
Variable key : string.

(** The accumulator stays an object, and its keys are those it had and
    those of the entries consumed, [__proto__] left out. *)
Lemma reduce_shape rest :
  forall acc,
    ordered acc = true ->
    ordered (fold_left (reducer services key) rest acc) = true
    /\ forall k,
        In k (keys (fold_left (reducer services key) rest acc))
        <-> (In k (map fst rest) /\ k <> "__proto__") \/ In k (keys acc).
Proof.
  induction rest as [|[k0 vs0] rest IH]; intros acc Hacc; simpl.
  - split; [exact Hacc|]. intros k. tauto.
  - destruct (IH (put k0 (tag_entry services key k0 vs0) acc)) as [Hord Hkeys].
    + now apply ordered_after_put.
    + split; [exact Hord|]. intros k. rewrite Hkeys, In_keys_put.
      split.
      * intros [[I N]|[I|[-> N]]]; auto.
      * intros [[[<-|I] N]|I]; auto.
Qed.

End Fold.

Lemma append_length (s t : string) :
  String.length (s ++ t) = String.length s + String.length t.
Proof. induction s as [|c s IH]; simpl; [reflexivity | now rewrite IH]. Qed.

(** Appending a suffix loses nothing. *)
Lemma append_cancel_r (t s1 s2 : string) : s1 ++ t = s2 ++ t -> s1 = s2.
Proof.
  revert s2. induction s1 as [|c s1 IH]; intros [|d s2] H; simpl in H.
  - reflexivity.
  - apply (f_equal String.length) in H. simpl in H. rewrite append_length in H. lia.
  - apply (f_equal String.length) in H. simpl in H. rewrite append_length in H. lia.
  - injection H as -> H. f_equal. now apply IH.
Qed.

Lemma all_supported_In services token :
  In token (all_supported services)
  <-> exists service, In service services /\ token = service ++ ":ALL_SUPPORTED".
Proof.
  unfold all_supported. rewrite in_map_iff. split; intros [x [A B]]; exists x; auto.
Qed.

End ReduceFacts.

Import ReduceFacts.

(** X3.  Whatever entries [reduce] is run over, the labels of the document
    it builds form an object: no label twice, array-index labels first and
    ascending; and they are exactly the names among the entries other than
    [__proto__], which gets no entry. *)
Theorem document_labels_form_an_object :
  forall services key required,
    ordered (tags services key required) = true
    /\ NoDup (keys (tags services key required))
    /\ forall label,
        In label (keys (tags services key required))
        <-> In label (keys required) /\ label <> "__proto__".
Proof.
  intros services key required. unfold tags, entries.
  destruct (reduce_shape services key required (empty value) eq_refl) as [Hord Hkeys].
  split; [exact Hord|]. split; [now apply ordered_NoDup|].
  intros label. rewrite Hkeys. simpl. unfold keys. tauto.
Qed.

(** X4.  In every entry of the compiled document the [tag_key] field
    assigns the very label the entry is stored under. *)
Theorem tag_key_is_the_label :
  forall services m required label entry,
    get label (tags services (enforcedForKey m) required) = Some entry ->
    exists fields,
      entry = VObject fields
      /\ get "tag_key" fields = Some (VObject [("@@assign", VString label)]).
Proof.
  intros services m required label entry H.
  apply reduce_get in H. destruct H as [[vs [_ ->]]|H]; [|discriminate].
  rewrite tag_entry_fields. eexists. split; [reflexivity|]. reflexivity.
Qed.

Lemma tag_key_is_the_label_witness :
  get "Owner" (tags ["ec2"] (enforcedForKey "preventive") sample_required)
  = Some (tag_entry ["ec2"] enforce_field "Owner" [])
  /\ exists fields,
      tag_entry ["ec2"] enforce_field "Owner" [] = VObject fields
      /\ get "tag_key" fields = Some (VObject [("@@assign", VString "Owner")]).
Proof.
  split; [reflexivity|].
  apply (tag_key_is_the_label ["ec2"] "preventive" sample_required "Owner").
  reflexivity.
Defined.

(** X5.  Every entry of the compiled document has two or three fields and
    no other: [tag_key], then [tag_value] when the label it was compiled
    from has allowed values, then the field chosen by the mode. *)
Theorem entry_has_two_or_three_fields :
  forall services m required label entry,
    get label (tags services (enforcedForKey m) required) = Some entry ->
    exists allowedValues fields,
      In (label, allowedValues) required
      /\ entry = VObject fields
      /\ keys fields
         = match allowedValues with
           | [] => ["tag_key"; enforcedForKey m]
           | _ :: _ => ["tag_key"; "tag_value"; enforcedForKey m]
           end.
Proof.
  intros services m required label entry H.
  apply reduce_get in H. destruct H as [[vs [I ->]]|H]; [|discriminate].
  exists vs. eexists. split; [exact I|]. split; [apply tag_entry_fields|].
  destruct vs; reflexivity.
Qed.

Lemma entry_has_two_or_three_fields_witness :
  get "Environment" (tags ["ec2"] (enforcedForKey "detective") sample_required)
  = Some (tag_entry ["ec2"] report_field "Environment" ["Dev"; "Prod"])
  /\ exists allowedValues fields,
      In ("Environment", allowedValues) sample_required
      /\ tag_entry ["ec2"] report_field "Environment" ["Dev"; "Prod"] = VObject fields
      /\ keys fields
         = match allowedValues with
           | [] => ["tag_key"; enforcedForKey "detective"]
           | _ :: _ => ["tag_key"; "tag_value"; enforcedForKey "detective"]
           end.
Proof.
  split; [reflexivity|].
  apply (entry_has_two_or_three_fields ["ec2"] "detective" sample_required "Environment").
  reflexivity.
Defined.

(** X6.  The two applicability fields exclude each other: under
    ["detective"] no entry of the document has an [enforced_for] field, and
    under any other mode no entry has a [*@@report_required_tag_for*]
    field. *)
Theorem applicability_fields_exclude_each_other :
  forall services m required label fields,
    get label (tags services (enforcedForKey m) required) = Some (VObject fields) ->
    (m = "detective" -> get "enforced_for" fields = None)
    /\ (m <> "detective" -> get "*@@report_required_tag_for*" fields = None).
Proof.
  intros services m required label fields H.
  apply reduce_get in H. destruct H as [[vs [_ E]]|H]; [|discriminate].
  rewrite tag_entry_fields in E. injection E as ->.
  destruct (enforcedForKey_cases m) as [[Hm ->]|[Hm ->]]; split; intros Hm';
    try contradiction; destruct vs; reflexivity.
Qed.

Lemma applicability_fields_exclude_each_other_witness :
  get "Owner" (tags ["ec2"] (enforcedForKey "detective") sample_required)
  = Some (VObject (entry_fields ["ec2"] report_field "Owner" []))
  /\ get "enforced_for" (entry_fields ["ec2"] report_field "Owner" []) = None
  /\ "Detective" <> "detective"
  /\ get "Owner" (tags ["ec2"] (enforcedForKey "Detective") sample_required)
     = Some (VObject (entry_fields ["ec2"] enforce_field "Owner" []))
  /\ get "*@@report_required_tag_for*" (entry_fields ["ec2"] enforce_field "Owner" [])
     = None.
Proof.
  split; [reflexivity|]. split.
  - apply (proj1 (applicability_fields_exclude_each_other
                    ["ec2"] "detective" sample_required "Owner" eq_refl)).
    reflexivity.
  - split; [discriminate|]. split; [reflexivity|].
    apply (proj2 (applicability_fields_exclude_each_other
                    ["ec2"] "Detective" sample_required "Owner" eq_refl)).
    discriminate.
Defined.

(** X7.  A change of mode shows in the document exactly when the mapping
    has a label other than [__proto__]: when it has none, the documents
    compiled under ["detective"] and under any other mode are the same;
    when it has one, they differ. *)
Theorem mode_shows_only_with_labels :
  forall services m required,
    m <> "detective" ->
    ((forall label, In label (keys required) -> label = "__proto__") ->
     tagPolicyContent services (enforcedForKey m) required
     = tagPolicyContent services (enforcedForKey "detective") required)
    /\ (forall label,
          In label (keys required) -> label <> "__proto__" ->
          tagPolicyContent services (enforcedForKey m) required
          <> tagPolicyContent services (enforcedForKey "detective") required).
Proof.
  intros services m required Hm.
  destruct (enforcedForKey_cases m) as [[E _]|[_ ->]]; [contradiction|].
  change (enforcedForKey "detective") with report_field.
  assert (Hlabels : forall key label,
             In label (keys (tags services key required))
             <-> In label (keys required) /\ label <> "__proto__").
  { intros key label. unfold tags, entries.
    destruct (reduce_shape services key required (empty value) eq_refl) as [_ Hkeys].
    rewrite Hkeys. simpl. unfold keys. tauto. }
  split.
  - intros Hall. rewrite !tagPolicyContent_tags.
    assert (Hnil : forall key, tags services key required = []).
    { intros key. destruct (tags services key required) as [|[k e] t] eqn:Et; [reflexivity|].
      exfalso. destruct (Hlabels key k) as [Hin _]. rewrite Et in Hin.
      destruct Hin as [I N]; [now left|]. now apply N, Hall. }
    now rewrite !Hnil.
  - intros k Hin Hk E.
    rewrite !tagPolicyContent_tags in E. injection E as E.
    assert (Hdef : exists e, get k (tags services report_field required) = Some e).
    { destruct (get k (tags services report_field required)) as [e|] eqn:G;
        [now exists e|].
      exfalso. apply get_none_iff in G. apply G. apply Hlabels. now split. }
    destruct Hdef as [e He].
    assert (He' := He). rewrite <- E in He'.
    apply reduce_get in He. destruct He as [[vs1 [_ ->]]|He]; [|discriminate].
    apply reduce_get in He'. destruct He' as [[vs2 [_ He']]|He']; [|discriminate].
    apply (f_equal (fun v => match v with
                             | VObject fields => get report_field fields
                             | _ => None
                             end)) in He'.
    destruct vs1, vs2; discriminate.
Qed.

Lemma mode_shows_only_with_labels_witness :
  "preventive" <> "detective"
  /\ (forall label, In label (keys [("__proto__", ["x"])]) -> label = "__proto__")
  /\ tagPolicyContent ["ec2"] (enforcedForKey "preventive") [("__proto__", ["x"])]
     = tagPolicyContent ["ec2"] (enforcedForKey "detective") [("__proto__", ["x"])]
  /\ In "Owner" (keys sample_required)
  /\ "Owner" <> "__proto__"
  /\ tagPolicyContent ["ec2"] (enforcedForKey "preventive") sample_required
     <> tagPolicyContent ["ec2"] (enforcedForKey "detective") sample_required.
Proof.
  assert (Hm : "preventive" <> "detective") by discriminate.
  assert (Hall : forall label, In label (keys [("__proto__", ["x"])]) -> label = "__proto__")
    by (simpl; intros label [<-|[]]; reflexivity).
  assert (Hin : In "Owner" (keys sample_required)) by (simpl; tauto).
  assert (Hne : "Owner" <> "__proto__") by discriminate.
  split; [exact Hm|]. split; [exact Hall|]. split.
  - exact (proj1 (@mode_shows_only_with_labels ["ec2"] "preventive"
                    [("__proto__", ["x"])] Hm) Hall).
  - split; [exact Hin|]. split; [exact Hne|].
    exact (proj2 (@mode_shows_only_with_labels ["ec2"] "preventive" sample_required Hm)
             "Owner" Hin Hne).
Defined.

(** X8.  The applicability tokens are as many as the services of the
    catalog, each is a service followed by [:ALL_SUPPORTED], and distinct
    services give distinct tokens. *)
Theorem tokens_are_distinct :
  forall services,
    NoDup services ->
    NoDup (all_supported services)
    /\ length (all_supported services) = length services
    /\ forall token,
        In token (all_supported services) ->
        exists service, In service services /\ token = service ++ ":ALL_SUPPORTED".
Proof.
  intros services Hnd.
  split; [|split].
  - induction Hnd as [|s rest Hnotin _ IH]; simpl; constructor; [|exact IH].
    intros I. apply all_supported_In in I. destruct I as [s' [I E]].
    apply append_cancel_r in E. subst s'. contradiction.
  - unfold all_supported. apply length_map.
  - intros token I. now apply all_supported_In.
Qed.

Lemma tokens_are_distinct_witness :
  NoDup SUPPORTED_SERVICES
  /\ NoDup (all_supported SUPPORTED_SERVICES)
  /\ length (all_supported SUPPORTED_SERVICES) = 44.
Proof.
  assert (Hnd : NoDup SUPPORTED_SERVICES).
  { assert (E : nodup string_dec SUPPORTED_SERVICES = SUPPORTED_SERVICES)
      by (vm_compute; reflexivity).
    rewrite <- E. apply NoDup_nodup. }
  split; [exact Hnd|].
  destruct (tokens_are_distinct Hnd) as (H1 & H2 & _).
  split; [exact H1 | exact H2].
Defined.

(** X9.  What a run exports describes the policy it registers: the
    exported tag keys other than [__proto__] are the labels of the
    registered document, in the document's order; the exported service
    count is the number of tokens under the applicability field of every
    entry; and the exported mode is the one the field was chosen by. *)
Theorem exports_describe_the_document :
  forall env,
    ordered (requiredTags (config env)) = true ->
    exists exports resources document,
      run (main env) = Normal (exports, resources)
      /\ map content (policies resources)
         = [JSON_stringify (VObject [("tags", VObject document)]) 2]
      /\ filter (fun k => negb (k =? "__proto__")) (requiredTagKeys exports)
         = keys document
      /\ forall label entry,
          get label document = Some entry ->
          exists fields tokens,
            entry = VObject fields
            /\ get (enforcedForKey (mode exports)) fields
               = Some (VObject [("@@assign", VArray tokens)])
            /\ length tokens = supportedServiceCount exports.
Proof.
  intros env Hord. do 2 eexists.
  exists (tags SUPPORTED_SERVICES (enforcedForKey (enforcementMode (config env)))
            (requiredTags (config env))).
  split; [apply main_runs|]. split; [reflexivity|]. split.
  - cbn [requiredTagKeys]. rewrite (tags_ordered _ _ _ Hord), keys_compiled.
    symmetry. apply keys_without_proto.
  - intros label entry H. cbn [mode supportedServiceCount].
    apply reduce_get in H. destruct H as [[vs [_ ->]]|H]; [|discriminate].
    unfold tag_entry. do 2 eexists. split; [reflexivity|].
    split; [apply get_set_same|].
    unfold all_supported. now rewrite !length_map.
Qed.

Lemma exports_describe_the_document_witness :
  ordered (requiredTags (config env_preventive)) = true
  /\ exists exports resources document,
      run (main env_preventive) = Normal (exports, resources)
      /\ map content (policies resources)
         = [JSON_stringify (VObject [("tags", VObject document)]) 2]
      /\ filter (fun k => negb (k =? "__proto__")) (requiredTagKeys exports)
         = keys document
      /\ forall label entry,
          get label document = Some entry ->
          exists fields tokens,
            entry = VObject fields
            /\ get (enforcedForKey (mode exports)) fields
               = Some (VObject [("@@assign", VArray tokens)])
            /\ length tokens = supportedServiceCount exports.
Proof.
  split; [reflexivity|].
  apply (exports_describe_the_document env_preventive). reflexivity.
Defined.

(** X10.  The resolved mode is never the empty string, and the report
    field is chosen exactly when the resolved mode is the string
    ["detective"], letter for letter. *)
Theorem resolved_mode_is_never_empty :
  forall cfg,
    enforcementMode cfg <> ""
    /\ (enforcedForKey (enforcementMode cfg) = "*@@report_required_tag_for*"
        <-> enforcementMode cfg = "detective").
Proof.
  intros cfg. split.
  - unfold enforcementMode, or_string.
    destruct (config_get cfg "enforcementMode") as [raw|]; [|discriminate].
    destruct (String.eqb_spec raw ""); [discriminate | assumption].
  - destruct (enforcedForKey_cases (enforcementMode cfg)) as [[E ->]|[E ->]].
    + split; [intros _; exact E | reflexivity].
    + split; [discriminate | contradiction].
Qed.

(* ================================================================== *)
(** ** Further facts: quoting *)

Module QuoteFacts.

Import Js.

(** A first byte other than [ED] starts no surrogate. *)
Lemma quote_body_head c s :
  nat_of_ascii c <> 237 ->
  quote_body (String c s) = quote_char c ++ quote_body s.
Proof.
  intros Hc. destruct s as [|c2 [|c3 s3]]; try reflexivity.
  change (quote_body (String c (String c2 (String c3 s3))))
    with (match surrogate_unit c c2 c3 with
          | Some u => unicode_escape u ++ quote_body s3
          | None => quote_char c ++ quote_body (String c2 (String c3 s3))
          end).
  unfold surrogate_unit.
  destruct (Nat.eqb_spec (nat_of_ascii c) 237); [contradiction | reflexivity].
Qed.

Lemma hex_digit_printable n : 32 <= nat_of_ascii (hex_digit n).
Proof.
  unfold hex_digit.
  do 16 (destruct n as [|n]; [vm_compute; lia|]).
  destruct n; vm_compute; lia.
Qed.

End QuoteFacts.

Import QuoteFacts.

(** X11.  [JSON.stringify] writes a string of printable ASCII characters
    (codes 32 to 126) other than the double quote and the backslash as it
    is, between two double quotes: such label names and values reach the
    policy text unchanged. *)
Theorem printable_ascii_is_quoted_verbatim :
  forall s,
    (forall c, In c (list_ascii_of_string s) ->
               32 <= nat_of_ascii c <= 126 /\ c <> dquote /\ c <> "\"%char) ->
    quote s = String dquote (s ++ String dquote "").
Proof.
  intros s Hplain. unfold quote. f_equal. f_equal.
  induction s as [|c s IH]; [reflexivity|].
  destruct (Hplain c (or_introl eq_refl)) as (Hrange & Hq & Hb).
  rewrite quote_body_head by lia.
  rewrite IH by (intros c' I; apply Hplain; now right).
  assert (H34 : nat_of_ascii c <> 34).
  { intros E. apply Hq. rewrite <- (ascii_nat_embedding c), E. reflexivity. }
  assert (H92 : nat_of_ascii c <> 92).
  { intros E. apply Hb. rewrite <- (ascii_nat_embedding c), E. reflexivity. }
  unfold quote_char.
  repeat match goal with
         | |- context [(?a =? ?b)%nat] =>
             destruct (Nat.eqb_spec a b); [lia|]
         end.
  destruct (Nat.ltb_spec (nat_of_ascii c) 32); [lia|]. reflexivity.
Qed.

Lemma printable_ascii_is_quoted_verbatim_witness :
  quote "Cost Center-01" = String dquote ("Cost Center-01" ++ String dquote "").
Proof.
  apply printable_ascii_is_quoted_verbatim.
  intros c I. simpl in I.
  repeat (destruct I as [<-|I];
          [split; [vm_compute; lia | split; discriminate]|]).
  contradiction.
Defined.

(* ================================================================== *)
(** ** Further facts: the characters of the policy text *)

Module TextFacts.

Import Js.

Lemma value_induction (P : value -> Prop) :
  (forall s, P (VString s)) ->
  (forall items, Forall P items -> P (VArray items)) ->
  (forall props, Forall (fun kv => P (snd kv)) props -> P (VObject props)) ->
  forall v, P v.
Proof.
  intros HS HA HO. fix IH 1. intros [s|items|props].
  - apply HS.
  - apply HA. induction items as [|x xs IHxs]; constructor; [apply IH | exact IHxs].
  - apply HO. induction props as [|[k x] xs IHxs]; constructor; [apply IH | exact IHxs].
Qed.

Lemma In_chars_append s t c :
  In c (list_ascii_of_string (s ++ t))
  <-> In c (list_ascii_of_string s) \/ In c (list_ascii_of_string t).
Proof.
  induction s as [|d s IH]; simpl; [tauto|]. rewrite IH. tauto.
Qed.

Lemma quote_char_printable c c' :
  In c' (list_ascii_of_string (quote_char c)) -> 32 <= nat_of_ascii c'.
Proof.
  destruct c as [[] [] [] [] [] [] [] []]; vm_compute;
    intros H; repeat (destruct H as [<-|H]; [vm_compute; lia|]); contradiction.
Qed.

Lemma quote_body_printable n :
  forall s, String.length s <= n ->
            forall c, In c (list_ascii_of_string (quote_body s)) -> 32 <= nat_of_ascii c.
Proof.
  induction n as [|n IH]; intros s Hlen c H.
  - destruct s; [contradiction | simpl in Hlen; lia].
  - destruct s as [|c1 s1]; [contradiction|]. simpl in Hlen.
    assert (Hstep : In c (list_ascii_of_string (quote_char c1 ++ quote_body s1)) ->
                    32 <= nat_of_ascii c).
    { intros H'. apply In_chars_append in H'. destruct H' as [H'|H'].
      - now apply (@quote_char_printable c1).
      - apply (IH s1); [lia | exact H']. }
    destruct s1 as [|c2 [|c3 s3]]; try (now apply Hstep).
    change (quote_body (String c1 (String c2 (String c3 s3))))
      with (match surrogate_unit c1 c2 c3 with
            | Some u => unicode_escape u ++ quote_body s3
            | None => quote_char c1 ++ quote_body (String c2 (String c3 s3))
            end) in H.
    destruct (surrogate_unit c1 c2 c3) as [u|]; [|now apply Hstep].
    apply In_chars_append in H. destruct H as [H|H].
    + unfold unicode_escape in H. simpl in H.
      destruct H as [<-|[<-|[<-|[<-|[<-|[<-|[]]]]]]];
        try apply hex_digit_printable; vm_compute; lia.
    + apply (IH s3); [simpl in Hlen; lia | exact H].
Qed.

Lemma quote_printable s c :
  In c (list_ascii_of_string (quote s)) -> 32 <= nat_of_ascii c.
Proof.
  unfold quote. intros H. cbn [list_ascii_of_string In] in H.
  destruct H as [<-|H]; [vm_compute; lia|].
  apply In_chars_append in H. destruct H as [H|H].
  - exact (@quote_body_printable (String.length s) s (le_n _) c H).
  - simpl in H. destruct H as [<-|[]]. vm_compute; lia.
Qed.

Section Layout.
(** [ok]: what a character of the text may be. *)
Variable ok : ascii -> Prop.
Hypothesis ok_printable : forall c, 32 <= nat_of_ascii c -> ok c.

Lemma join_ok sep parts :
  (forall c, In c (list_ascii_of_string sep) -> ok c) ->
  Forall (fun p => forall c, In c (list_ascii_of_string p) -> ok c) parts ->
  forall c, In c (list_ascii_of_string (join sep parts)) -> ok c.
Proof.
  intros Hsep Hparts. induction Hparts as [|p rest Hp Hrest IH]; simpl.
  - intros c [].
  - destruct rest as [|q rest]; [exact Hp|].
    intros c H. apply In_chars_append in H. destruct H as [H|H]; [now apply Hp|].
    apply In_chars_append in H. destruct H as [H|H]; [now apply Hsep | now apply IH].
Qed.

Lemma wrap_ok opening closing gap stepback indent partial :
  (forall c, In c (list_ascii_of_string opening) -> 32 <= nat_of_ascii c) ->
  (forall c, In c (list_ascii_of_string closing) -> 32 <= nat_of_ascii c) ->
  (gap <> "" -> ok "010"%char) ->
  (forall c, In c (list_ascii_of_string stepback) -> ok c) ->
  (forall c, In c (list_ascii_of_string indent) -> ok c) ->
  Forall (fun p => forall c, In c (list_ascii_of_string p) -> ok c) partial ->
  forall c, In c (list_ascii_of_string (wrap opening closing gap stepback indent partial)) ->
            ok c.
Proof.
  intros Hop Hcl Hnl Hstep Hind Hparts c. unfold wrap.
  destruct partial as [|p rest].
  - intros H. apply In_chars_append in H. apply ok_printable. destruct H; auto.
  - destruct (String.eqb_spec gap "") as [Hgap|Hgap]; intros H.
    + apply In_chars_append in H. destruct H as [H|H]; [now apply ok_printable, Hop|].
      apply In_chars_append in H. destruct H as [H|H]; [|now apply ok_printable, Hcl].
      revert H. apply join_ok; [|exact Hparts].
      simpl. intros c' [<-|[]]. apply ok_printable. vm_compute; lia.
    + assert (Hnewline : forall c', In c' (list_ascii_of_string newline) -> ok c').
      { simpl. intros c' [<-|[]]. now apply Hnl. }
      repeat (apply In_chars_append in H; destruct H as [H|H]);
        try (now apply ok_printable, Hop); try (now apply ok_printable, Hcl);
        try (now apply Hnewline); try (now apply Hind); try (now apply Hstep).
      revert H. apply join_ok; [|exact Hparts].
      intros c' H. change ("," ++ newline ++ indent)
        with (String "," (newline ++ indent)) in H.
      simpl in H. destruct H as [<-|H]; [apply ok_printable; vm_compute; lia|].
      destruct H as [<-|H]; [now apply Hnl | now apply Hind].
Qed.

Lemma serialize_ok gap :
  (gap <> "" -> ok "010"%char) ->
  (forall c, In c (list_ascii_of_string gap) -> ok c) ->
  forall v indent,
    (forall c, In c (list_ascii_of_string indent) -> ok c) ->
    forall c, In c (list_ascii_of_string (serialize gap indent v)) -> ok c.
Proof.
  intros Hnl Hgap v. induction v as [s|items IH|props IH] using value_induction;
    intros indent Hind; cbn [serialize].
  - intros c H. apply ok_printable, (@quote_printable s c). exact H.
  - assert (Hin : forall c, In c (list_ascii_of_string (indent ++ gap)) -> ok c).
    { intros c H. apply In_chars_append in H. destruct H; auto. }
    apply wrap_ok; auto.
    + cbn. intros c [<-|[]]. vm_compute; lia.
    + cbn. intros c [<-|[]]. vm_compute; lia.
    + induction IH as [|x xs Hx _ IHxs]; cbn [map]; constructor; [|exact IHxs].
      now apply Hx.
  - assert (Hin : forall c, In c (list_ascii_of_string (indent ++ gap)) -> ok c).
    { intros c H. apply In_chars_append in H. destruct H; auto. }
    apply wrap_ok; auto.
    + cbn. intros c [<-|[]]. vm_compute; lia.
    + cbn. intros c [<-|[]]. vm_compute; lia.
    + induction IH as [|[k x] xs Hx _ IHxs]; cbn [map]; constructor; [|exact IHxs].
      intros c H. cbn [snd] in Hx.
      apply In_chars_append in H. destruct H as [H|H];
        [apply ok_printable, (@quote_printable k c); exact H|].
      apply In_chars_append in H. destruct H as [H|H];
        [cbn in H; destruct H as [<-|[]]; apply ok_printable; vm_compute; lia|].
      apply In_chars_append in H. destruct H as [H|H]; [|now apply (Hx _ Hin)].
      destruct (gap =? ""); cbn in H; [contradiction|].
      destruct H as [<-|[]]. apply ok_printable. vm_compute; lia.
Qed.

End Layout.

Lemma spaces_blank n c : In c (list_ascii_of_string (spaces n)) -> c = " "%char.
Proof.
  induction n as [|n IH]; simpl; [contradiction|]. intros [<-|H]; auto.
Qed.

End TextFacts.

Import TextFacts.

(** X12.  The text [JSON.stringify] gives has no character below U+0020
    but the line feeds of its layout, whatever strings the value holds
    (such characters in them are written as escapes); without indentation
    it has none at all and is a single line. *)
Theorem text_has_nothing_below_space :
  forall v space c,
    In c (list_ascii_of_string (JSON_stringify v space)) ->
    (space = 0 -> 32 <= nat_of_ascii c)
    /\ (c = "010"%char \/ 32 <= nat_of_ascii c).
Proof.
  intros v space c H. unfold JSON_stringify in H. split.
  - intros ->. revert H. simpl.
    apply (serialize_ok (fun c => 32 <= nat_of_ascii c)); auto.
    + intros E. now elim E.
    + intros c' [].
    + intros c' [].
  - revert H.
    apply (serialize_ok (fun c => c = "010"%char \/ 32 <= nat_of_ascii c)); auto.
    + intros c' H. right. apply spaces_blank in H. subst c'. vm_compute; lia.
    + intros c' [].
Qed.

Lemma text_has_nothing_below_space_witness :
  In "009"%char (list_ascii_of_string (String "009"%char "a"))
  /\ JSON_stringify (VArray [VString (String "009"%char "a")]) 0
     = String "[" (String dquote ("\ta" ++ String dquote "]"))
  /\ In "\"%char (list_ascii_of_string
                    (JSON_stringify (VArray [VString (String "009"%char "a")]) 0))
  /\ 32 <= nat_of_ascii "\"%char.
Proof.
  split; [now left|]. split; [reflexivity|].
  assert (I : In "\"%char (list_ascii_of_string
                             (JSON_stringify (VArray [VString (String "009"%char "a")]) 0)))
    by (vm_compute; tauto).
  split; [exact I|].
  apply (proj1 (text_has_nothing_below_space _ _ _ I)). reflexivity.
Defined.

(** X13.  The text of the policy a run registers has no character below
    U+0020 but the line feeds of its two-space layout, whatever label
    names and allowed values the configuration holds. *)
Theorem policy_text_has_nothing_below_space :
  forall env policy c,
    In policy (policies (registered (run (main env)))) ->
    In c (list_ascii_of_string (content policy)) ->
    c = "010"%char \/ 32 <= nat_of_ascii c.
Proof.
  intros env policy c Hp Hc. rewrite main_runs in Hp. simpl in Hp.
  destruct Hp as [<-|[]]. cbn [content policy_args] in Hc.
  revert Hc. unfold JSON_stringify.
  apply (serialize_ok (fun c => c = "010"%char \/ 32 <= nat_of_ascii c)); auto.
  - intros c' H. right. apply spaces_blank in H. subst c'. vm_compute; lia.
  - intros c' [].
Qed.

Lemma policy_text_has_nothing_below_space_witness :
  In (policy_args (config env_blank)) (policies (registered (run (main env_blank))))
  /\ In "{"%char (list_ascii_of_string (content (policy_args (config env_blank))))
  /\ ("{"%char = "010"%char \/ 32 <= nat_of_ascii "{"%char).
Proof.
  assert (Hp : In (policy_args (config env_blank))
                 (policies (registered (run (main env_blank)))))
    by (left; reflexivity).
  assert (Hc : In "{"%char (list_ascii_of_string (content (policy_args (config env_blank)))))
    by (vm_compute; left; reflexivity).
  split; [exact Hp|]. split; [exact Hc|].
  exact (@policy_text_has_nothing_below_space env_blank _ _ Hp Hc).
Defined.
